(** * dashp: merging Dash docsets into one search index

    A shallow embedding of [dashp.py].  The program reads the index
    store of every docset given on the command line, normalises the
    rows, appends them to one in-memory index, and hands that index to
    the external selector [fzf].

    The embedding is organised as the program is:
    - [PyStr]    the [str] methods the program calls;
    - [Re]       the one regular expression it uses, with Python's
                 greedy, backtracking matching;
    - [Pathlib]  the part of [pathlib.PurePosixPath] it relies on;
    - [Sqlite]   values, rows, failures and the exception classes of
                 the [sqlite3] module, and the legacy four-table join;
    - [Dashp]    [merge_docsets], [launch_fzf] and [main], written in a
                 small monad that records observable effects and
                 propagates Python exceptions. *)

From Stdlib Require Import String Ascii List Bool Arith ZArith Lia DecimalString.
Import ListNotations.
Local Open Scope string_scope.
Local Open Scope list_scope.

(** ** Python string methods *)

Module PyStr.

(** [s.startswith(p)] *)
Fixpoint startswith (s p : string) {struct p} : bool :=
  match p, s with
  | EmptyString, _ => true
  | String _ _, EmptyString => false
  | String a p', String c s' => Ascii.eqb a c && startswith s' p'
  end.

(** [s.endswith(suf)]: some tail of [s] is exactly [suf]. *)
Fixpoint endswith (s suf : string) : bool :=
  if String.eqb s suf then true
  else match s with
       | EmptyString => false
       | String _ s' => endswith s' suf
       end.

(** [s.removesuffix(suf)]: [s] without its tail [suf] when it has that
    tail, [s] itself otherwise. *)
Fixpoint removesuffix (s suf : string) : string :=
  if String.eqb s suf then EmptyString
  else match s with
       | EmptyString => EmptyString
       | String c s' => String c (removesuffix s' suf)
       end.

(** [sep.join(xs)] *)
Fixpoint join (sep : string) (xs : list string) : string :=
  match xs with
  | [] => EmptyString
  | [x] => x
  | x :: rest => x ++ sep ++ join sep rest
  end.

(** [s.split(sep)] for a one-character separator: never empty, one
    more component than there are separators. *)
Fixpoint split (sep : ascii) (s : string) : list string :=
  match s with
  | EmptyString => [EmptyString]
  | String c s' =>
      if Ascii.eqb c sep then EmptyString :: split sep s'
      else match split sep s' with
           | x :: xs => String c x :: xs
           | [] => [String c EmptyString]
           end
  end.

(** [s.rfind(c)] for a one-character needle: index of the last
    occurrence, [None] for Python's [-1]. *)
Fixpoint rfind (c : ascii) (s : string) : option nat :=
  match s with
  | EmptyString => None
  | String a s' =>
      match rfind c s' with
      | Some i => Some (S i)
      | None => if Ascii.eqb a c then Some 0 else None
      end
  end.

(** [s[:n]] *)
Fixpoint take (n : nat) (s : string) : string :=
  match n, s with
  | S k, String c s' => String c (take k s')
  | _, _ => EmptyString
  end.

(** The characters [str.strip()] removes, over the one-byte code
    points: tab, line feed, vertical tab, form feed, carriage return,
    the four separators 28..31 and the space. *)
Definition isspace (c : ascii) : bool :=
  let n := nat_of_ascii c in
  (Nat.leb 9 n && Nat.leb n 13) || (Nat.leb 28 n && Nat.leb n 32).

(** [s.lstrip()] *)
Fixpoint lstrip (s : string) : string :=
  match s with
  | EmptyString => EmptyString
  | String c s' => if isspace c then lstrip s' else s
  end.

(** [s.rstrip()] *)
Fixpoint rstrip (s : string) : string :=
  match s with
  | EmptyString => EmptyString
  | String c s' =>
      match rstrip s' with
      | EmptyString => if isspace c then EmptyString else String c EmptyString
      | t => String c t
      end
  end.

(** [s.strip()] *)
Definition strip (s : string) : string := rstrip (lstrip s).

(** Truth value of a string in a condition: non-empty. *)
Definition truthy (s : string) : bool :=
  match s with EmptyString => false | _ => true end.

End PyStr.

(** ** The regular expression [<dash_entry_.*>] *)

Module Re.

(** A matcher takes the text at the current position and answers with
    the number of characters it consumed, or [None] when it fails. *)
Definition matcher := string -> option nat.

(** A literal: the text must start with it. *)
Fixpoint lit (p : string) (k : matcher) (s : string) : option nat :=
  match p with
  | EmptyString => k s
  | String a p' =>
      match s with
      | String c s' =>
          if Ascii.eqb a c then option_map S (lit p' k s') else None
      | EmptyString => None
      end
  end.

(** End of the pattern: the match succeeds having consumed nothing more. *)
Definition done : matcher := fun _ => Some 0.

(** [.] matches every character but the line feed (no [DOTALL] flag). *)
Definition dot (c : ascii) : bool := negb (Ascii.eqb c "010"%char).

(** [.*] followed by [k].  The star is greedy: it first takes one more
    character and only when the rest cannot match from there does it
    give that character back and try [k] at the current position. *)
Fixpoint dotstar (k : matcher) (s : string) : option nat :=
  match s with
  | EmptyString => k s
  | String c s' =>
      if dot c then
        match dotstar k s' with
        | Some n => Some (S n)
        | None => k s
        end
      else k s
  end.

(** The end of the pattern: the closing [>]. *)
Definition closing : matcher := lit ">" done.

(** [re.compile(r"<dash_entry_.*>").match] at one position. *)
Definition dash_entry : matcher :=
  lit "<dash_entry_" (dotstar closing).

(** [re.sub(pattern, "", s)]: scan from the left; where the pattern
    matches, drop the matched characters and go on after them; where it
    does not, keep the character.  [skip] counts the characters of the
    current match still to be dropped.  The pattern never matches the
    empty string, so no empty-match rule is needed. *)
Fixpoint sub_empty (pat : matcher) (skip : nat) (s : string) : string :=
  match s with
  | EmptyString => EmptyString
  | String c s' =>
      match skip with
      | S k => sub_empty pat k s'
      | O =>
          match pat s with
          | Some (S k) => sub_empty pat k s'
          | _ => String c (sub_empty pat 0 s')
          end
      end
  end.

(** [re.sub(r"<dash_entry_.*>", "", path)] *)
Definition strip_dash_entry (path : string) : string :=
  sub_empty dash_entry 0 path.

End Re.

(** ** pathlib *)

Module Pathlib.

Import PyStr.

(** A pure POSIX path after parsing: the root (empty, one slash or two)
    and the components. *)
Record Path := mkPath { root : string; tail : list string }.

(** [p[i:i+1] == sep] *)
Definition sep_at (i : nat) (p : string) : bool :=
  match String.get i p with
  | Some c => Ascii.eqb c "/"
  | None => false
  end.

(** [p[n:]] *)
Fixpoint drop (n : nat) (p : string) : string :=
  match n, p with
  | S k, String _ p' => drop k p'
  | _, _ => p
  end.

(** [posixpath.splitroot], without the drive that POSIX paths never
    have: one leading slash, or three and more, make the root [/];
    exactly two make the root [//]. *)
Definition splitroot (p : string) : string * string :=
  if negb (sep_at 0 p) then ("", p)
  else if negb (sep_at 1 p) || sep_at 2 p then ("/", drop 1 p)
  else ("//", drop 2 p).

(** A component is kept unless it is empty or a single dot. *)
Definition keep_part (x : string) : bool :=
  negb (String.eqb x "") && negb (String.eqb x ".").

(** [Path(arg)] *)
Definition parse (arg : string) : Path :=
  let (r, rel) := splitroot arg in
  mkPath r (filter keep_part (split "/" rel)).

(** [str(p)] *)
Definition str (p : Path) : string :=
  match root p, tail p with
  | EmptyString, [] => "."
  | r, t => r ++ join "/" t
  end.

(** [p / seg] for a string segment: an absolute segment replaces the
    path, a relative one adds its components. *)
Definition truediv (p : Path) (seg : string) : Path :=
  let q := parse seg in
  match root q with
  | EmptyString => mkPath (root p) (tail p ++ tail q)
  | _ => q
  end.

(** [p.name]: the last component, empty when there is none. *)
Definition name (p : Path) : string := last (tail p) "".

(** [p.stem]: the name without its last suffix; a name whose only dot
    is its first or its last character has no suffix. *)
Definition stem (p : Path) : string :=
  let n := name p in
  match rfind "." n with
  | Some i =>
      if Nat.ltb 0 i && Nat.ltb i (String.length n - 1) then take i n else n
  | None => n
  end.

End Pathlib.

(** ** sqlite3 *)

Module Sqlite.

(** A value of a result column as Python receives it: [None] for
    NULL, a [str] for text.  The columns the program reads are text
    columns; numbers and blobs are outside this model. *)
Inductive value := Null | Text (s : string).

(** One fetched row of either query: [(name, type, path)]. *)
Definition row : Type := value * value * value.

(** What can go wrong with the store, by SQLite result code. *)
Inductive failure :=
| NoSuchTable (t : string)   (* SQLITE_ERROR, no such table: t *)
| NoSuchColumn (c : string)  (* SQLITE_ERROR, no such column: c *)
| Busy                       (* SQLITE_BUSY, database is locked *)
| Perm                       (* SQLITE_PERM, access permission denied *)
| CantOpen                   (* SQLITE_CANTOPEN, unable to open database file *)
| IoErr                      (* SQLITE_IOERR, disk I/O error *)
| Corrupt                    (* SQLITE_CORRUPT, database disk image is malformed *)
| NotADb.                    (* SQLITE_NOTADB, file is not a database *)

(** The exception classes of the [sqlite3] module that these failures
    are raised as. [OperationalError] is a subclass of [DatabaseError];
    [DatabaseError] below stands for an instance that is not an
    [OperationalError]. *)
Inductive exc_class := OperationalError | DatabaseError.

(** How the [sqlite3] module maps a result code to an exception class:
    SQLITE_ERROR, SQLITE_PERM, SQLITE_BUSY, SQLITE_CANTOPEN and
    SQLITE_IOERR raise [OperationalError]; SQLITE_CORRUPT and the codes
    it has no case for, SQLITE_NOTADB among them, raise
    [DatabaseError]. *)
Definition class_of (f : failure) : exc_class :=
  match f with
  | Corrupt | NotADb => DatabaseError
  | _ => OperationalError
  end.

(** The failures the fallback is meant for: the flat table or one of
    its columns is missing. *)
Definition missing_relation (f : failure) : bool :=
  match f with
  | NoSuchTable _ | NoSuchColumn _ => true
  | _ => false
  end.

(** *** SQL scalar functions of the legacy query *)

(** [x || y]: NULL when either side is NULL. *)
Definition concat (x y : value) : value :=
  match x, y with
  | Text a, Text b => Text (a ++ b)
  | _, _ => Null
  end.

(** [nullif(x, y)]: NULL when the two are equal, [x] otherwise; a NULL
    is equal to nothing. *)
Definition nullif (x y : value) : value :=
  match x, y with
  | Text a, Text b => if String.eqb a b then Null else x
  | _, _ => x
  end.

(** [ifnull(x, y)]: the first of the two that is not NULL. *)
Definition ifnull (x y : value) : value :=
  match x with
  | Null => y
  | _ => x
  end.

(** [zpath || ifnull('#' || nullif(zanchor, ''), '')] *)
Definition url (zpath zanchor : value) : value :=
  concat zpath (ifnull (concat (Text "#") (nullif zanchor (Text ""))) (Text "")).

(** *** The four tables of the legacy schema

    Each record has the columns the query names.  The query does not
    qualify [ztokenname], [ztypename], [zpath] and [zanchor]; they
    belong to the one table of the join that has a column of that
    name: the token, the token type, the file path and the token
    meta-information.  A reference column is NULL ([None]) or a key. *)

Record ztoken_row := mkToken {
  ztokenname : value;
  zmetainformation : option Z;
  ztokentype_ref : option Z
}.

Record ztokenmetainformation_row := mkMeta {
  meta_z_pk : Z;
  zfile : option Z;
  zanchor : value
}.

Record zfilepath_row := mkFile {
  file_z_pk : Z;
  zpath : value
}.

Record ztokentype_row := mkType {
  type_z_pk : Z;
  ztypename : value
}.

Record legacy_db := mkLegacy {
  ztoken : list ztoken_row;
  ztokenmetainformation : list ztokenmetainformation_row;
  zfilepath : list zfilepath_row;
  ztokentype : list ztokentype_row
}.

(** [pk = ref] in an ON clause: never true of a NULL reference. *)
Definition on_eq (pk : Z) (ref : option Z) : bool :=
  match ref with
  | Some k => Z.eqb pk k
  | None => false
  end.

(** One step of an inner join: the rows of [table] that satisfy the
    ON condition, each continued by [k]. *)
Definition join_on {A B : Type} (table : list A) (on : A -> bool)
    (k : A -> list B) : list B :=
  flat_map (fun a => if on a then k a else []) table.

(** The rows the query has for one token: the token joined with its
    meta-information, that with its file path, and the token with its
    type, as nested loops in the order of the ON clauses. *)
Definition token_rows (db : legacy_db) (t : ztoken_row) : list row :=
  join_on (ztokenmetainformation db)
    (fun m => on_eq (meta_z_pk m) (zmetainformation t))
    (fun m =>
  join_on (zfilepath db)
    (fun f => on_eq (file_z_pk f) (zfile m))
    (fun f =>
  join_on (ztokentype db)
    (fun ty => on_eq (type_z_pk ty) (ztokentype_ref t))
    (fun ty =>
      [(ztokenname t, ztypename ty, url (zpath f) (zanchor m))]))).

(** The legacy query: the rows of every token of [ztoken], the first
    table of the FROM clause, in the order of that table. *)
Definition legacy_query (db : legacy_db) : list row :=
  flat_map (token_rows db) (ztoken db).

(** *** A docset store as the program sees it

    A connection answers the two queries the program sends.
    [execute] fails or gives a cursor; [fetchall] on the cursor fails
    or gives all the rows. *)
Definition cursor : Type := failure + list row.

Record store := mkStore {
  select_searchIndex : failure + cursor;
  select_ztoken : failure + cursor
}.

(** A store of the modern schema: the flat table exists, the legacy
    tables do not. *)
Definition modern_store (rows : list row) : store :=
  mkStore (inr (inr rows)) (inl (NoSuchTable "ztoken")).

(** A store of the legacy schema: no flat table, the four tables. *)
Definition legacy_store (db : legacy_db) : store :=
  mkStore (inl (NoSuchTable "searchIndex")) (inr (inr (legacy_query db))).

End Sqlite.

(** ** Effects and exceptions *)

Module Eff.

Inductive level := WARNING | ERROR.

(** Which of the two queries a cursor executes. *)
Inductive query := SelectSearchIndex | SelectZToken.

(** What the program does that the outside can see. *)
Inductive event :=
| Log (lvl : level) (msg : string)          (* logging.warning / logging.error *)
| Connect (uri : string)                    (* sqlite3.connect on a docset store *)
| Execute (uri : string) (q : query)        (* cursor().execute on that store *)
| RunFzf (input : string)                   (* subprocess.run(["fzf", ...]) *)
| Print (line : string).                    (* print to standard output *)

(** The Python exceptions that can travel through the program. *)
Inductive exn :=
| SystemExit (code : Z)
| SqliteError (f : Sqlite.failure)
| TypeError
| FileNotFoundError
| PermissionError.

(** A computation: the events it emitted, and an exception or a value. *)
Definition M (A : Type) : Type := list event * (exn + A).

Definition ret {A} (x : A) : M A := ([], inr x).

Definition bind {A B} (m : M A) (f : A -> M B) : M B :=
  match m with
  | (t, inl e) => (t, inl e)
  | (t, inr x) => let (t', r) := f x in (t ++ t', r)
  end.

Definition emit (e : event) : M unit := ([e], inr tt).

Definition raise {A} (e : exn) : M A := ([], inl e).

(** [try: m except <handler>]: the handler answers [None] for an
    exception its clause does not name, which then goes on upwards. *)
Definition try_except {A} (m : M A) (handler : exn -> option (M A)) : M A :=
  match m with
  | (t, inl e) =>
      match handler e with
      | Some h => let (t', r) := h in (t ++ t', r)
      | None => (t, inl e)
      end
  | (t, inr x) => (t, inr x)
  end.

(** Lift the answer of the outside world. *)
Definition of_sqlite {A} (r : Sqlite.failure + A) : M A :=
  match r with
  | inl f => raise (SqliteError f)
  | inr x => ret x
  end.

Definition trace {A} (m : M A) : list event := fst m.
Definition result {A} (m : M A) : exn + A := snd m.

End Eff.

Declare Scope eff_scope.
Delimit Scope eff_scope with eff.
Notation "x <- c1 ;; c2" := (Eff.bind c1 (fun x => c2))
  (at level 61, c1 at next level, right associativity) : eff_scope.
Notation "c1 ;; c2" := (Eff.bind c1 (fun _ => c2))
  (at level 61, right associativity) : eff_scope.

(** ** The program *)

Module Dashp.

Import PyStr Pathlib Sqlite Eff.
Local Open Scope eff_scope.

(** A row of the in-memory [searchIndex] table, without its [id]: the
    table is kept as the list of its rows in insertion order, which is
    the order of their automatically assigned ids. *)
Record Entry := mkEntry {
  name : value;
  entry_type : value;
  docset : string;
  path : string
}.

(** What running [fzf] can come to. *)
Inductive fzf_outcome :=
| NotInstalled                                   (* FileNotFoundError *)
| NotPermitted                                   (* PermissionError *)
| Completed (returncode : Z) (stdout : string).

(** The outside world: which files exist, what opening a store by URI
    gives, and what the selector does with its input. *)
Record world := mkWorld {
  path_exists : string -> bool;
  sqlite_connect : string -> failure + store;
  fzf : string -> fzf_outcome
}.

(** [docset / "Contents/Resources/docSet.dsidx"] *)
Definition docset_db_path (docset : Path) : Path :=
  truediv docset "Contents/Resources/docSet.dsidx".

(** [f"file:{docset_db_path}?mode=ro"] *)
Definition docset_uri (docset : Path) : string :=
  ("file:" ++ str (docset_db_path docset) ++ "?mode=ro")%string.

(** [str(docset / 'Contents/Resources/Documents')] *)
Definition documents_root (docset : Path) : string :=
  str (truediv docset "Contents/Resources/Documents").

(** [cursor().execute(...)] on a docset store. *)
Definition execute (uri : string) (q : query) (st : store) : M cursor :=
  emit (Execute uri q) ;;
  of_sqlite match q with
            | SelectSearchIndex => select_searchIndex st
            | SelectZToken => select_ztoken st
            end.

(** The [try] of [merge_docsets] with its [except
    sqlite3.OperationalError] clause. *)
Definition open_cursor (uri : string) (st : store) : M cursor :=
  try_except (execute uri SelectSearchIndex st)
    (fun e =>
       match e with
       | SqliteError f =>
           match class_of f with
           | OperationalError => Some (execute uri SelectZToken st)
           | DatabaseError => None
           end
       | _ => None
       end).

(** The [try] statement, then [docset_cursor.fetchall()], which is
    outside of it. *)
Definition fetch_rows (uri : string) (st : store) : M (list row) :=
  docset_cursor <- open_cursor uri st ;;
  of_sqlite docset_cursor.

(** [re.sub] on a fetched path: a [str] is rewritten, [None] is not a
    string and raises. *)
Definition re_sub_path (p : value) : M string :=
  match p with
  | Text s => ret (Re.strip_dash_entry s)
  | Null => raise TypeError
  end.

(** The body of the loop over the rows: clean the path, prefix it,
    insert. *)
Definition insert_row (d : Path) (index : list Entry) (r : row)
  : M (list Entry) :=
  let '(name, entry_type, path) := r in
  path' <- re_sub_path path ;;
  let prefixed_path := (documents_root d ++ "/" ++ path')%string in
  ret (index ++ [mkEntry name entry_type (stem d) prefixed_path]).

Fixpoint insert_rows (d : Path) (index : list Entry) (rows : list row)
  : M (list Entry) :=
  match rows with
  | [] => ret index
  | r :: rest =>
      index' <- insert_row d index r ;;
      insert_rows d index' rest
  end.

(** The loop over the docsets, from an index that holds [index]. *)
Fixpoint merge_loop (w : world) (docsets : list Path) (index : list Entry)
  : M (list Entry) :=
  match docsets with
  | [] => ret index
  | docset :: rest =>
      if negb (path_exists w (str (docset_db_path docset))) then
        emit (Log WARNING
                ("Database not found for docset: " ++ str docset)%string) ;;
        merge_loop w rest index
      else
        emit (Connect (docset_uri docset)) ;;
        docset_db <- of_sqlite (sqlite_connect w (docset_uri docset)) ;;
        rows <- fetch_rows (docset_uri docset) docset_db ;;
        index' <- insert_rows docset index rows ;;
        merge_loop w rest index'
  end.

(** [merge_docsets]: a fresh, empty table, then the loop. *)
Definition merge_docsets (w : world) (docsets : list Path) : M (list Entry) :=
  merge_loop w docsets [].

(** [f"{v}"] of a fetched value. *)
Definition format_value (v : value) : string :=
  match v with
  | Null => "None"
  | Text s => s
  end.

Definition tab : string := String "009"%char EmptyString.
Definition newline : string := String "010"%char EmptyString.

(** ["%d" % n] *)
Definition format_d (n : Z) : string :=
  DecimalString.NilZero.string_of_int (Z.to_int n).

(** One line of the selector's input. *)
Definition fzf_line (e : Entry) : string :=
  (format_value (name e) ++ " (" ++ format_value (entry_type e) ++ ", "
    ++ docset e ++ ")" ++ tab ++ path e)%string.

(** [subprocess.run(["fzf", ...], input=fzf_input, check=False)] *)
Definition subprocess_run (w : world) (input : string) : M (Z * string) :=
  emit (RunFzf input) ;;
  match fzf w input with
  | NotInstalled => raise FileNotFoundError
  | NotPermitted => raise PermissionError
  | Completed returncode stdout => ret (returncode, stdout)
  end.

Definition launch_fzf (w : world) (db : list Entry) : M (option string) :=
  let fzf_input := join newline (map fzf_line db) in
  try_except
    (fzf_process <- subprocess_run w fzf_input ;;
     let '(returncode, stdout) := fzf_process in
     if Z.eqb returncode 130 then ret None
     else if negb (Z.eqb returncode 0) then
       emit (Log ERROR ("FZF failed to run with exit code: "
                        ++ format_d returncode)%string) ;;
       raise (SystemExit returncode)
     else
       let selected_line := strip stdout in
       if truthy selected_line then ret (Some selected_line) else ret None)
    (fun e =>
       match e with
       | FileNotFoundError =>
           Some (emit (Log ERROR "FZF is not installed.") ;; ret None)
       | _ => None
       end).

(** The test of the list comprehension in [main]. *)
Definition is_docset_arg (arg : string) : bool :=
  endswith (removesuffix arg "/") ".docset".

(** [main], for [sys.argv = argv0 :: args]. *)
Definition main (w : world) (argv0 : string) (args : list string) : M unit :=
  if Nat.ltb (List.length (argv0 :: args)) 2 then
    emit (Log ERROR
            ("Usage: " ++ argv0 ++ " <docset1> <docset2> ...")%string) ;;
    raise (SystemExit 1)
  else
    let docsets := map parse (filter is_docset_arg args) in
    match docsets with
    | [] =>
        emit (Log ERROR "No docsets provided.") ;;
        raise (SystemExit 1)
    | _ =>
        db <- merge_docsets w docsets ;;
        selected_path <- launch_fzf w db ;;
        match selected_path with
        | Some p =>
            if truthy p then emit (Print p) ;; raise (SystemExit 0)
            else raise (SystemExit 1)
        | None => raise (SystemExit 1)
        end
    end.

(** The status the process ends with: the argument of [sys.exit]; 1
    when another exception reaches the top; 0 when [main] returns.
    (The operating system keeps the low eight bits of that code; return
    codes of a child process fit in them.) *)
Definition exit_status (r : exn + unit) : Z :=
  match r with
  | inl (SystemExit code) => code
  | inl _ => 1
  | inr _ => 0
  end.

End Dashp.

(** ** The download script *)

Module Download.

Import PyStr Pathlib.

(** A JSON value as [json.loads] returns it: [None], a [bool], a
    number (kept as its literal), a [str], a [list], a [dict].  The
    members of a [dict] are listed with their keys, which are
    distinct. *)
#[warnings="-register-all"]
Inductive json :=
| JNull
| JBool (b : bool)
| JNumber (literal : string)
| JString (s : string)
| JList (items : list json)
| JDict (members : list (string * json)).

Inductive level := INFO | ERROR.

(** The exceptions of the script. *)
Inductive exn :=
| SystemExit (code : Z)
| NetworkError (what : string)     (* OSError, http.client.HTTPException *)
| DecodeError (what : string)      (* json.JSONDecodeError, UnicodeDecodeError *)
| AttributeError
| TypeError
| FileNotFoundError
| PermissionError.

(** [except Exception] catches everything but the exceptions that
    derive from [BaseException] alone; [SystemExit] is one of those. *)
Definition is_Exception (e : exn) : bool :=
  match e with
  | SystemExit _ => false
  | _ => true
  end.

(** An argument of a logging call. *)
Inductive log_arg :=
| ArgInt (n : Z)
| ArgStr (s : string)
| ArgExc (e : exn).

Inductive event :=
| Log (lvl : level) (fmt : string) (args : list log_arg)
| HttpGet (host path : string)
| RunFzf (input : string)
| DownloadDocset (docset_name : string) (target_dir : string).

(** Computations, as in [dashp.py]: the events, and an exception or a
    value. *)
Definition M (A : Type) : Type := list event * (exn + A).

Definition ret {A} (x : A) : M A := ([], inr x).

Definition bind {A B} (m : M A) (f : A -> M B) : M B :=
  match m with
  | (t, inl e) => (t, inl e)
  | (t, inr x) => let (t', r) := f x in (t ++ t', r)
  end.

Definition emit (e : event) : M unit := ([e], inr tt).

Definition raise {A} (e : exn) : M A := ([], inl e).

Definition try_except {A} (m : M A) (handler : exn -> option (M A)) : M A :=
  match m with
  | (t, inl e) =>
      match handler e with
      | Some h => let (t', r) := h in (t ++ t', r)
      | None => (t, inl e)
      end
  | (t, inr x) => (t, inr x)
  end.

Definition of_outcome {A} (r : exn + A) : M A :=
  match r with
  | inl e => raise e
  | inr x => ret x
  end.

Definition trace {A} (m : M A) : list event := fst m.
Definition result {A} (m : M A) : exn + A := snd m.

(** An HTTP response: its status, and what [read] gives, the body
    or a network failure. *)
Record response := mkResponse {
  status : Z;
  read : string + string
}.

(** The outside of the script: the directories; the answer of the
    GitHub API, a response or a network failure; the JSON parser of
    the standard library, which gives a value or fails to decode; the
    selector; and [download_docset], whose body (network, archive and
    progress output) is not modelled: it is any function that raises
    or answers with a boolean, and what it logs is not recorded. *)
Record env := mkEnv {
  dir_exists : string -> bool;
  is_dir : string -> bool;
  github : string + response;
  json_loads : string -> string + json;
  fzf : string -> Dashp.fzf_outcome;
  download_docset : string -> Path -> exn + bool
}.

(** The answers of the network and of the parser, with their
    exceptions. *)
Definition of_network {A} (r : string + A) : M A :=
  match r with
  | inl what => raise (NetworkError what)
  | inr x => ret x
  end.

Definition of_decoder {A} (r : string + A) : M A :=
  match r with
  | inl what => raise (DecodeError what)
  | inr x => ret x
  end.

(** The member of a [dict] under a key, or the default. *)
Definition lookup (members : list (string * json)) (key : string)
    (default : json) : json :=
  match find (fun m => String.eqb (fst m) key) members with
  | Some m => snd m
  | None => default
  end.

(** [d.get(key, default)]: only a [dict] has the method. *)
Definition get (d : json) (key : string) (default : json) : M json :=
  match d with
  | JDict members => ret (lookup members key default)
  | _ => raise AttributeError
  end.

(** The characters of a string, each as a string. *)
Fixpoint chars (s : string) : list string :=
  match s with
  | EmptyString => []
  | String c s' => String c EmptyString :: chars s'
  end.

(** [for item in v]: the items of a list, the keys of a dict, the
    characters of a string; nothing else can be iterated. *)
Definition iterate (v : json) : M (list json) :=
  match v with
  | JList items => ret items
  | JDict members => ret (map (fun m => JString (fst m)) members)
  | JString s => ret (map JString (chars s))
  | _ => raise TypeError
  end.

(** [v == "blob"] *)
Definition is_blob (v : json) : bool :=
  match v with
  | JString s => String.eqb s "blob"
  | _ => false
  end.

(** [v.endswith(".xml")]: only a [str] has the method. *)
Definition endswith_xml (v : json) : M bool :=
  match v with
  | JString s => ret (endswith s ".xml")
  | _ => raise AttributeError
  end.

(** [v[:-4]] of a [str]. *)
Definition without_extension (v : json) : string :=
  match v with
  | JString s => take (String.length s - 4) s
  | _ => EmptyString
  end.

(** The loop over the items of the tree; [docsets] is the list
    built so far. *)
Fixpoint collect (items : list json) (docsets : list string)
  : M (list string) :=
  match items with
  | [] => ret docsets
  | item :: rest =>
      bind (get item "type" (JString "")) (fun item_type =>
      bind (get item "path" (JString "")) (fun item_path =>
      bind (if is_blob item_type then endswith_xml item_path
            else ret false) (fun is_feed =>
      if is_feed then
        collect rest (docsets ++ [without_extension item_path])
      else collect rest docsets)))
  end.

(** A list of strings in ascending order of the code points. *)
Fixpoint ascending (l : list string) : bool :=
  match l with
  | [] => true
  | x :: l' =>
      match l' with
      | [] => true
      | y :: _ => String.leb x y && ascending l'
      end
  end.

(** [sorted] on strings: the one ascending arrangement of the list,
    here built by insertion. *)
Fixpoint insert_sorted (x : string) (l : list string) : list string :=
  match l with
  | [] => [x]
  | y :: l' => if String.leb x y then x :: l else y :: insert_sorted x l'
  end.

Fixpoint sorted (l : list string) : list string :=
  match l with
  | [] => []
  | x :: l' => insert_sorted x (sorted l')
  end.

Definition fetch_available_docsets (w : env) : M (list string) :=
  try_except
    (bind (emit (HttpGet "api.github.com" "/repos/Kapeli/feeds/git/trees/master"))
       (fun _ =>
     bind (of_network (github w)) (fun response =>
     if negb (Z.eqb (status response) 200) then
       bind (emit (Log ERROR "Failed to fetch docsets: HTTP %d"
                     [ArgInt (status response)])) (fun _ =>
       ret [])
     else
       bind (of_network (read response)) (fun response_data =>
       bind (of_decoder (json_loads w response_data)) (fun data =>
       bind (get data "tree" (JList [])) (fun tree =>
       bind (iterate tree) (fun items =>
       bind (collect items []) (fun docsets =>
       ret (sorted docsets)))))))))
    (fun e =>
       if is_Exception e then
         Some (bind (emit (Log ERROR "Failed to fetch docsets: %s" [ArgExc e]))
                 (fun _ => ret []))
       else None).

Definition newline : string := String "010"%char EmptyString.

(** The list comprehension over the lines of the selector's output. *)
Definition selected_lines (stdout : string) : list string :=
  map strip
    (filter (fun line => truthy (strip line)) (split "010" (strip stdout))).

Definition select_docsets_with_fzf (w : env) (docsets : list string)
  : M (list string) :=
  match docsets with
  | [] => ret []
  | _ =>
      let fzf_input := join newline docsets in
      try_except
        (bind (emit (RunFzf fzf_input)) (fun _ =>
         match fzf w fzf_input with
         | Dashp.NotInstalled => raise FileNotFoundError
         | Dashp.NotPermitted => raise PermissionError
         | Dashp.Completed returncode stdout =>
             if Z.eqb returncode 130 then raise (SystemExit 0)
             else if negb (Z.eqb returncode 0) then
               bind (emit (Log ERROR "FZF failed to run with exit code: %d"
                             [ArgInt returncode])) (fun _ =>
               ret [])
             else ret (selected_lines stdout)
         end))
        (fun e =>
           match e with
           | FileNotFoundError =>
               Some (bind (emit (Log ERROR
                       "FZF is not installed. Please install FZF to use this script."
                       [])) (fun _ => ret []))
           | _ => None
           end)
  end.

(** The loop of [main] over the selected docsets; [success_count] is
    the count so far. *)
Fixpoint download_all (w : env) (selected : list string) (docset_dir : Path)
    (success_count : Z) : M Z :=
  match selected with
  | [] => ret success_count
  | docset_name :: rest =>
      bind (emit (DownloadDocset docset_name (str docset_dir))) (fun _ =>
      bind (of_outcome (download_docset w docset_name docset_dir)) (fun ok =>
      download_all w rest docset_dir
        (if ok then (success_count + 1)%Z else success_count)))
  end.

(** [main], for [sys.argv = argv0 :: args]. *)
Definition main (w : env) (argv0 : string) (args : list string) : M unit :=
  match args with
  | [] =>
      bind (emit (Log ERROR "Usage: %s <target_directory>" [ArgStr argv0]))
        (fun _ => raise (SystemExit 1))
  | arg1 :: _ =>
      let docset_dir := parse arg1 in
      if negb (dir_exists w (str docset_dir)) then
        bind (emit (Log ERROR "Directory does not exist: %s"
                      [ArgStr (str docset_dir)])) (fun _ =>
        raise (SystemExit 1))
      else if negb (is_dir w (str docset_dir)) then
        bind (emit (Log ERROR "Path is not a directory: %s"
                      [ArgStr (str docset_dir)])) (fun _ =>
        raise (SystemExit 1))
      else
        bind (emit (Log INFO "Fetching available docsets..." [])) (fun _ =>
        bind (fetch_available_docsets w) (fun docsets =>
        match docsets with
        | [] =>
            bind (emit (Log ERROR "No docsets found or failed to fetch." []))
              (fun _ => raise (SystemExit 1))
        | _ =>
            bind (emit (Log INFO "Found %d docsets"
                          [ArgInt (Z.of_nat (List.length docsets))])) (fun _ =>
            bind (select_docsets_with_fzf w docsets) (fun selected =>
            match selected with
            | [] =>
                bind (emit (Log INFO "No docsets selected." [])) (fun _ =>
                raise (SystemExit 0))
            | _ =>
                bind (download_all w selected docset_dir 0) (fun success_count =>
                bind (emit (Log INFO "Downloaded %d of %d selected docsets"
                              [ArgInt success_count;
                               ArgInt (Z.of_nat (List.length selected))]))
                  (fun _ =>
                raise (SystemExit
                         (if Z.eqb success_count
                               (Z.of_nat (List.length selected))
                          then 0 else 1))))
            end))
        end))
  end.

(** The status the process ends with, as for [dashp.py]. *)
Definition exit_status (r : exn + unit) : Z :=
  match r with
  | inl (SystemExit code) => code
  | inl _ => 1
  | inr _ => 0
  end.

End Download.

Import PyStr Pathlib Sqlite Eff Dashp.

(** * Notions used in the statements *)

(** Does the character occur in the string? *)
Fixpoint has_char (c : ascii) (s : string) : bool :=
  match s with
  | EmptyString => false
  | String a s' => Ascii.eqb a c || has_char c s'
  end.


(** The events of a merge: diagnostics and accesses to docset stores. *)
Definition merge_event (e : event) : bool :=
  match e with
  | Log WARNING _ | Connect _ | Execute _ _ => true
  | _ => false
  end.

(** The exceptions a merge can end with. *)
Definition merge_exn (r : exn + list Entry) : bool :=
  match r with
  | inl (SqliteError _) | inl TypeError | inr _ => true
  | inl _ => false
  end.

(** ** Legacy stores whose references resolve

    In a legacy store every token refers to one row of
    meta-information and one token type, and the meta-information to
    one file path; the keys are primary keys.  The rows of [table]
    that a reference selects: *)
Definition referenced {A : Type} (key : A -> Z) (table : list A)
    (ref : option Z) : list A :=
  filter (fun a => on_eq (key a) ref) table.



(** The row that belongs to token [t]. *)
Definition row_of (db : legacy_db) (t : ztoken_row) (r : row) : Prop :=
  exists m f ty,
    In m (ztokenmetainformation db) /\ zmetainformation t = Some (meta_z_pk m)
    /\ In f (zfilepath db) /\ zfile m = Some (file_z_pk f)
    /\ In ty (ztokentype db) /\ ztokentype_ref t = Some (type_z_pk ty)
    /\ r = (ztokenname t, ztypename ty, url (zpath f) (zanchor m)).

(** What [main] does once the selector has answered. *)
Definition finish (selected_path : option string) : M unit :=
  match selected_path with
  | Some p =>
      if truthy p then bind (emit (Print p)) (fun _ => raise (SystemExit 0))
      else raise (SystemExit 1)
  | None => raise (SystemExit 1)
  end.

(** ** Worlds to run the program in *)

(** The store of a docset directory sits at this path. *)
Definition store_path (dir : string) : string :=
  (dir ++ "/Contents/Resources/docSet.dsidx")%string.

(** A world with the given docset stores, listed by docset directory,
    and a selector that answers [sel] whatever it is given.  Any other
    file is absent. *)
Definition world_of (stores : list (string * store)) (sel : fzf_outcome)
  : world :=
  mkWorld
    (fun p => existsb (fun ds => String.eqb p (store_path (fst ds))) stores)
    (fun uri =>
       match find (fun ds =>
                     String.eqb uri ("file:" ++ store_path (fst ds) ++ "?mode=ro"))
                  stores with
       | Some ds => inr (snd ds)
       | None => inl CantOpen
       end)
    (fun _ => sel).

(** A legacy store with one token [bar] of type [Class] in file
    [b.html] at anchor [anchor1]. *)
Definition legacy_bar : legacy_db :=
  mkLegacy [mkToken (Text "bar") (Some 1%Z) (Some 1%Z)]
           [mkMeta 1 (Some 1%Z) (Text "anchor1")]
           [mkFile 1 (Text "b.html")]
           [mkType 1 (Text "Class")].

(** A store whose file is an SQLite database of neither schema: both
    queries fail. *)
Definition broken_store : store :=
  mkStore (inl (NoSuchTable "searchIndex")) (inl (NoSuchTable "ztoken")).

(** A store that another process keeps locked. *)
Definition locked_store : store := mkStore (inl Busy) (inl Busy).

Definition map_row : row := (Text "map", Text "Function", Text "map.html").

(** ** Rows and their entries *)

(** The entry that [merge_docsets] inserts for a row of docset [d]
    whose path is text. *)
Definition row_entry (d : Path) (r : row) (e : Entry) : Prop :=
  exists nm ty raw,
    r = (nm, ty, Text raw)
    /\ e = mkEntry nm ty (stem d)
             (documents_root d ++ "/" ++ Re.strip_dash_entry raw).

(** What a docset that can be read contributes: nothing when its
    store file is absent, the entries of its rows otherwise. *)
Definition contributes (w : world) (d : Path) (es : list Entry) : Prop :=
  (path_exists w (str (docset_db_path d)) = false /\ es = [])
  \/ (path_exists w (str (docset_db_path d)) = true
      /\ exists st t rows,
           sqlite_connect w (docset_uri d) = inr st
           /\ fetch_rows (docset_uri d) st = (t, inr rows)
           /\ Forall2 (row_entry d) rows es).

(** An entry made for docset [d]: tagged with its stem, its path
    below its documents root. *)
Definition entry_from (d : Path) (e : Entry) : Prop :=
  docset e = stem d
  /\ startswith (path e) (documents_root d ++ "/") = true.



Definition is_print (e : event) : bool :=
  match e with Print _ => true | _ => false end.

(** ** Markers and whitespace *)

(** One marker [<dash_entry_...>] with text [m] inside. *)
Definition marker (m : string) : string :=
  ("<dash_entry_" ++ m ++ ">")%string.

(** Markers one after the other, as Dash writes them before a path. *)
Fixpoint markers (ms : list string) : string :=
  match ms with
  | [] => ""
  | m :: rest => (marker m ++ markers rest)%string
  end.

(** What lies between the first [<dash_entry_] and the last [>] of a
    run of markers. *)
Fixpoint inner (m : string) (rest : list string) : string :=
  match rest with
  | [] => m
  | m' :: rest' => (m ++ ">" ++ "<dash_entry_" ++ inner m' rest')%string
  end.




(** ** The tree of the feeds repository *)

(** An item of the tree that stands for the feed of docset [name]: a
    blob whose path is the name with the extension [.xml]. *)
Definition feed_item (item : Download.json) (name : string) : Prop :=
  exists members,
    item = Download.JDict members
    /\ Download.lookup members "type" (Download.JString "")
       = Download.JString "blob"
    /\ Download.lookup members "path" (Download.JString "")
       = Download.JString (name ++ ".xml").

(** An item as the API lists them: an object, whose path is a string
    when it is a blob. *)
Definition regular_item (item : Download.json) : Prop :=
  exists members,
    item = Download.JDict members
    /\ (Download.is_blob
          (Download.lookup members "type" (Download.JString "")) = true ->
        exists p, Download.lookup members "path" (Download.JString "")
                  = Download.JString p).

(** The downloads among the events of a run. *)
Definition is_download (e : Download.event) : bool :=
  match e with
  | Download.DownloadDocset _ _ => true
  | _ => false
  end.

(** How many of the downloads succeeded. *)
Fixpoint successes (oks : list bool) : Z :=
  match oks with
  | [] => 0
  | ok :: rest => ((if ok then 1 else 0) + successes rest)%Z
  end.

(** * Facts about the string methods *)

Section StringFacts.

Lemma append_nil_r (s : string) : (s ++ "")%string = s.
Proof. induction s as [|c s IH]; simpl; [reflexivity | now rewrite IH]. Qed.

Lemma append_assoc (a b c : string) :
  ((a ++ b) ++ c)%string = (a ++ (b ++ c))%string.
Proof. induction a as [|x a IH]; simpl; [reflexivity | now rewrite IH]. Qed.

Lemma length_append (a b : string) :
  String.length (a ++ b) = String.length a + String.length b.
Proof. induction a as [|x a IH]; simpl; [reflexivity | now rewrite IH]. Qed.

(** A string is never its own proper tail. *)
Lemma cons_append_neq (c : ascii) (p suf : string) :
  String.eqb (String c (p ++ suf)) suf = false.
Proof.
  apply String.eqb_neq. intro H.
  apply (f_equal String.length) in H. simpl in H.
  rewrite length_append in H. lia.
Qed.

Lemma endswith_cons (c : ascii) (s suf : string) :
  endswith (String c s) suf =
  if String.eqb (String c s) suf then true else endswith s suf.
Proof. reflexivity. Qed.

Lemma removesuffix_cons (c : ascii) (s suf : string) :
  removesuffix (String c s) suf =
  if String.eqb (String c s) suf then ""%string
  else String c (removesuffix s suf).
Proof. reflexivity. Qed.

Lemma endswith_refl (s : string) : endswith s s = true.
Proof. destruct s; [reflexivity|]. now rewrite endswith_cons, String.eqb_refl. Qed.

Lemma removesuffix_refl (s : string) : removesuffix s s = ""%string.
Proof. destruct s; [reflexivity|]. now rewrite removesuffix_cons, String.eqb_refl. Qed.

Lemma endswith_append (p suf : string) : endswith (p ++ suf) suf = true.
Proof.
  induction p as [|c p IH].
  - apply endswith_refl.
  - change (String c p ++ suf)%string with (String c (p ++ suf)).
    now rewrite endswith_cons, cons_append_neq.
Qed.

Lemma endswith_inv (s suf : string) :
  endswith s suf = true -> exists p, s = (p ++ suf)%string.
Proof.
  induction s as [|c s IH].
  - destruct suf; [now exists ""%string | discriminate].
  - rewrite endswith_cons.
    destruct (String.eqb (String c s) suf) eqn:E.
    + apply String.eqb_eq in E. subst. now exists ""%string.
    + intro H. destruct (IH H) as [p ->]. now exists (String c p).
Qed.

(** [removesuffix] does what the Python documentation says. *)
Lemma removesuffix_append (p suf : string) :
  removesuffix (p ++ suf) suf = p.
Proof.
  induction p as [|c p IH].
  - apply removesuffix_refl.
  - change (String c p ++ suf)%string with (String c (p ++ suf)).
    now rewrite removesuffix_cons, cons_append_neq, IH.
Qed.

Lemma removesuffix_other (s suf : string) :
  endswith s suf = false -> removesuffix s suf = s.
Proof.
  induction s as [|c s IH].
  - now destruct suf.
  - rewrite endswith_cons, removesuffix_cons.
    destruct (String.eqb (String c s) suf); [discriminate|].
    intro H. now rewrite IH.
Qed.

(** Two strings that are equal end with the same character. *)
Lemma append_last_inj (p q : string) (a b : ascii) :
  (p ++ String a "")%string = (q ++ String b "")%string -> a = b.
Proof.
  revert q; induction p as [|x p IH]; intros [|y q]; simpl; intro H.
  - now inversion H.
  - inversion H as [[Hx Hq]]. destruct q; discriminate.
  - inversion H as [[Hx Hp]]. destruct p; discriminate.
  - inversion H. eauto.
Qed.

Lemma endswith_last_differs (p suf : string) (a b : ascii) :
  a <> b -> endswith (p ++ String a "") (suf ++ String b "") = false.
Proof.
  intro Hab. destruct (endswith _ _) eqn:E; [|reflexivity].
  apply endswith_inv in E. destruct E as [q E].
  rewrite <- append_assoc in E. apply append_last_inj in E. contradiction.
Qed.

Lemma split_not_nil (sep : ascii) (s : string) : split sep s <> [].
Proof.
  destruct s as [|c s]; simpl; [discriminate|].
  destruct (Ascii.eqb c sep); [discriminate|].
  destruct (split sep s); discriminate.
Qed.

(** A trailing separator adds one empty component. *)
Lemma split_trailing_sep (sep : ascii) (s : string) :
  split sep (s ++ String sep "") = split sep s ++ [""%string].
Proof.
  induction s as [|c s IH]; simpl.
  - now rewrite Ascii.eqb_refl.
  - destruct (Ascii.eqb c sep); [now rewrite IH|].
    rewrite IH. destruct (split sep s) eqn:E; [|reflexivity].
    now apply split_not_nil in E.
Qed.

Lemma has_char_append (c : ascii) (a b : string) :
  has_char c (a ++ b) = has_char c a || has_char c b.
Proof.
  induction a as [|x a IH]; simpl; [reflexivity|].
  now rewrite IH, orb_assoc.
Qed.

Lemma split_no_sep (sep : ascii) (s : string) :
  has_char sep s = false -> split sep s = [s].
Proof.
  induction s as [|c s IH]; simpl; [reflexivity|].
  intro H. apply orb_false_iff in H. destruct H as [Hc Hs].
  now rewrite Hc, (IH Hs).
Qed.

Lemma rfind_append (c : ascii) (a b : string) :
  rfind c (a ++ b) =
  match rfind c b with
  | Some i => Some (String.length a + i)
  | None => rfind c a
  end.
Proof.
  induction a as [|x a IH]; simpl.
  - now destruct (rfind c b).
  - rewrite IH. now destruct (rfind c b).
Qed.

Lemma take_append (a b : string) : take (String.length a) (a ++ b) = a.
Proof.
  induction a as [|x a IH]; simpl; [now destruct b | now rewrite IH].
Qed.

Lemma startswith_append (p s : string) : startswith (p ++ s) p = true.
Proof.
  induction p as [|c p IH]; simpl; [reflexivity|].
  now rewrite Ascii.eqb_refl.
Qed.

End StringFacts.

(** * Facts about paths and the argument filter *)

Section PathFacts.


(** Text that starts with something else than a separator does not
    change the root of what precedes it. *)
Lemma splitroot_append (s t : string) (c : ascii) :
  Ascii.eqb c "/" = false ->
  splitroot (s ++ String c t) =
  (fst (splitroot s), (snd (splitroot s) ++ String c t)%string).
Proof.
  intro Hc. unfold splitroot, sep_at.
  destruct s as [|a [|b [|d s]]]; simpl; rewrite ?Hc; simpl; try reflexivity.
  - destruct (Ascii.eqb a "/"); simpl; reflexivity.
  - destruct (Ascii.eqb a "/"), (Ascii.eqb b "/"); simpl; reflexivity.
  - destruct (Ascii.eqb a "/"), (Ascii.eqb b "/"), (Ascii.eqb d "/");
      simpl; reflexivity.
Qed.


(** One trailing separator is lost in parsing. *)
Lemma parse_trailing_sep (s t : string) (c : ascii) :
  Ascii.eqb c "/" = false ->
  parse (s ++ String c t ++ "/") = parse (s ++ String c t).
Proof.
  intro Hc. unfold parse.
  change (String c t ++ "/")%string with (String c (t ++ "/")).
  rewrite !splitroot_append by exact Hc.
  f_equal.
  change (String c (t ++ "/")) with (String c t ++ "/")%string.
  rewrite <- append_assoc, split_trailing_sep, filter_app. simpl.
  now rewrite app_nil_r.
Qed.

Lemma is_docset_arg_plain (s : string) :
  is_docset_arg (s ++ ".docset") = true.
Proof.
  unfold is_docset_arg.
  rewrite removesuffix_other.
  - apply endswith_append.
  - change ".docset"%string with (".docse" ++ String "t" "")%string.
    rewrite <- append_assoc.
    change "/"%string with ("" ++ String "/" "")%string.
    now apply endswith_last_differs.
Qed.

Lemma is_docset_arg_one_sep (s : string) :
  is_docset_arg (s ++ ".docset/") = true.
Proof.
  unfold is_docset_arg.
  change ".docset/"%string with (".docset" ++ "/")%string.
  rewrite <- append_assoc, removesuffix_append.
  apply endswith_append.
Qed.


(** The test accepts exactly the arguments that end in the suffix,
    followed by at most one separator. *)
Lemma is_docset_arg_iff (arg : string) :
  is_docset_arg arg = true <->
  exists s, arg = (s ++ ".docset")%string \/ arg = (s ++ ".docset/")%string.
Proof.
  split.
  - unfold is_docset_arg. intro H.
    destruct (endswith arg "/") eqn:E.
    + apply endswith_inv in E. destruct E as [p ->].
      rewrite removesuffix_append in H.
      apply endswith_inv in H. destruct H as [s ->].
      exists s. right. now rewrite append_assoc.
    + rewrite (removesuffix_other _ _ E) in H.
      apply endswith_inv in H. destruct H as [s ->]. exists s. now left.
  - intros [s [-> | ->]];
      [apply is_docset_arg_plain | apply is_docset_arg_one_sep].
Qed.

Lemma keep_part_long (x : string) :
  2 <= String.length x -> keep_part x = true.
Proof.
  destruct x as [|a [|b x]]; simpl; try lia. intros _.
  unfold keep_part. simpl. now destruct (Ascii.eqb a ".").
Qed.


End PathFacts.

(** * Facts about computations *)

Section MonadFacts.

Context {A B C : Type}.

Lemma bind_ret_l (x : A) (f : A -> M B) : bind (ret x) f = f x.
Proof. unfold bind, ret. now destruct (f x). Qed.

Lemma bind_raise (e : exn) (f : A -> M B) : bind (raise e) f = raise e.
Proof. reflexivity. Qed.

Lemma bind_assoc (m : M A) (f : A -> M B) (g : B -> M C) :
  bind (bind m f) g = bind m (fun x => bind (f x) g).
Proof.
  destruct m as [t [e|x]]; simpl; [reflexivity|].
  destruct (f x) as [t1 [e1|y]]; simpl; [reflexivity|].
  destruct (g y) as [t2 r2]. now rewrite app_assoc.
Qed.

Lemma bind_ext (m : M A) (f g : A -> M B) :
  (forall x, f x = g x) -> bind m f = bind m g.
Proof. intro H. destruct m as [t [e|x]]; simpl; [reflexivity | now rewrite H]. Qed.

(** A computation that succeeded, followed by another. *)
Lemma bind_ok (m : M A) (f : A -> M B) (t : list event) (x : A) :
  m = (t, inr x) -> bind m f = (t ++ fst (f x), snd (f x)).
Proof. intros ->. simpl. now destruct (f x). Qed.

(** A computation that raised: what follows does not run. *)
Lemma bind_fail (m : M A) (f : A -> M B) (t : list event) (e : exn) :
  m = (t, inl e) -> bind m f = (t, inl e).
Proof. now intros ->. Qed.

Lemma bind_inv_ok (m : M A) (f : A -> M B) (t : list event) (y : B) :
  bind m f = (t, inr y) ->
  exists t1 x t2, m = (t1, inr x) /\ f x = (t2, inr y) /\ t = t1 ++ t2.
Proof.
  destruct m as [t1 [e|x]]; simpl; [discriminate|].
  destruct (f x) as [t2 r] eqn:E. intro H. inversion H; subst.
  now exists t1, x, t2.
Qed.

Lemma trace_bind (m : M A) (f : A -> M B) :
  trace (bind m f) =
  trace m ++ match result m with
             | inl _ => []
             | inr x => trace (f x)
             end.
Proof.
  destruct m as [t [e|x]]; simpl; [now rewrite app_nil_r|].
  now destruct (f x).
Qed.

Lemma result_bind (m : M A) (f : A -> M B) :
  result (bind m f) =
  match result m with
  | inl e => inl e
  | inr x => result (f x)
  end.
Proof. destruct m as [t [e|x]]; simpl; [reflexivity | now destruct (f x)]. Qed.

End MonadFacts.

(** * Facts about the merge *)

Section MergeFacts.

Variable w : world.

Lemma insert_row_silent d idx r : trace (insert_row d idx r) = [].
Proof. destruct r as [[n ty] [|p]]; reflexivity. Qed.

Lemma insert_rows_silent d rows : forall idx, trace (insert_rows d idx rows) = [].
Proof.
  induction rows as [|r rows IH]; intro idx; [reflexivity|].
  simpl. destruct r as [[n ty] [|p]]; [reflexivity|].
  unfold insert_row, re_sub_path. rewrite bind_ret_l, bind_ret_l. apply IH.
Qed.

Lemma insert_rows_exn d rows : forall idx, merge_exn (result (insert_rows d idx rows)) = true.
Proof.
  induction rows as [|r rows IH]; intro idx; [reflexivity|].
  simpl. destruct r as [[n ty] [|p]]; [reflexivity|].
  unfold insert_row, re_sub_path. rewrite bind_ret_l, bind_ret_l. apply IH.
Qed.

(** Inserting rows appends one entry per row and touches nothing that
    was there. *)
Lemma insert_rows_extends d rows : forall idx t idx',
  insert_rows d idx rows = (t, inr idx') ->
  exists new, idx' = idx ++ new /\ length new = length rows
              /\ Forall (fun e => docset e = stem d) new.
Proof.
  induction rows as [|r rows IH]; intros idx t idx' H.
  - inversion H; subst. exists []. now rewrite app_nil_r.
  - simpl in H. destruct r as [[n ty] [|p]]; [discriminate|].
    unfold insert_row, re_sub_path in H. rewrite bind_ret_l, bind_ret_l in H.
    apply IH in H. destruct H as (new & -> & Hlen & Hall).
    eexists (_ :: new). rewrite <- app_assoc. split; [reflexivity|].
    split; [simpl; now rewrite Hlen|]. constructor; [reflexivity | exact Hall].
Qed.

Lemma fetch_rows_events uri st :
  Forall (fun e => merge_event e = true) (trace (fetch_rows uri st)).
Proof.
  unfold fetch_rows, open_cursor, execute, of_sqlite.
  destruct (select_searchIndex st) as [f|[f|rows]]; simpl;
    [|repeat constructor..].
  destruct (class_of f); simpl; [|repeat constructor].
  destruct (select_ztoken st) as [f'|[f'|rows]]; simpl; repeat constructor.
Qed.

Lemma fetch_rows_exn uri st :
  match result (fetch_rows uri st) with
  | inl (SqliteError _) | inr _ => True
  | inl _ => False
  end.
Proof.
  unfold fetch_rows, open_cursor, execute, of_sqlite.
  destruct (select_searchIndex st) as [f|[f|rows]]; simpl; try exact I.
  destruct (class_of f); simpl; [|exact I].
  destruct (select_ztoken st) as [f'|[f'|rows]]; simpl; exact I.
Qed.

(** One turn of the loop over the docsets, unfolded. *)
Lemma merge_loop_cons docset rest idx :
  merge_loop w (docset :: rest) idx =
  if negb (path_exists w (str (docset_db_path docset))) then
    bind (emit (Log WARNING
                  ("Database not found for docset: " ++ str docset)%string))
         (fun _ => merge_loop w rest idx)
  else
    bind (emit (Connect (docset_uri docset))) (fun _ =>
    bind (of_sqlite (sqlite_connect w (docset_uri docset))) (fun docset_db =>
    bind (fetch_rows (docset_uri docset) docset_db) (fun rows =>
    bind (insert_rows docset idx rows) (fun idx' =>
    merge_loop w rest idx')))).
Proof. reflexivity. Qed.

(** The loop over a list of docsets in two parts. *)
Lemma merge_loop_app pre post : forall idx,
  merge_loop w (pre ++ post) idx =
  bind (merge_loop w pre idx) (fun idx' => merge_loop w post idx').
Proof.
  induction pre as [|d pre IH]; intro idx.
  - simpl app. change (merge_loop w [] idx) with (ret (A:=list Entry) idx).
    now rewrite bind_ret_l.
  - simpl app. rewrite !merge_loop_cons.
    destruct (negb _).
    + rewrite bind_assoc. apply bind_ext. intros _. apply IH.
    + rewrite bind_assoc. apply bind_ext. intros _.
      rewrite bind_assoc. apply bind_ext. intros docset_db.
      rewrite bind_assoc. apply bind_ext. intros rows.
      rewrite bind_assoc. apply bind_ext. intros idx'. apply IH.
Qed.

(** The loop only ever appends to the index it is given. *)
Lemma merge_loop_extends docsets : forall idx t idx',
  merge_loop w docsets idx = (t, inr idx') -> exists new, idx' = idx ++ new.
Proof.
  induction docsets as [|d rest IH]; intros idx t idx' H.
  - inversion H; subst. exists []. now rewrite app_nil_r.
  - rewrite merge_loop_cons in H. destruct (negb _).
    + apply bind_inv_ok in H. destruct H as (t1 & [] & t2 & _ & H & _).
      now apply IH in H.
    + apply bind_inv_ok in H. destruct H as (t1 & [] & t2 & _ & H & _).
      apply bind_inv_ok in H. destruct H as (t3 & st & t4 & _ & H & _).
      apply bind_inv_ok in H. destruct H as (t5 & rows & t6 & _ & H & _).
      apply bind_inv_ok in H. destruct H as (t7 & idx1 & t8 & Hins & H & _).
      apply insert_rows_extends in Hins. destruct Hins as (new1 & -> & _).
      apply IH in H. destruct H as (new2 & ->).
      exists (new1 ++ new2). now rewrite app_assoc.
Qed.

(** A merge logs warnings and reads docset stores, nothing else. *)
Lemma merge_loop_events docsets : forall idx,
  Forall (fun e => merge_event e = true) (trace (merge_loop w docsets idx)).
Proof.
  induction docsets as [|d rest IH]; intro idx; [constructor|].
  rewrite merge_loop_cons. destruct (negb _).
  - rewrite trace_bind. simpl. constructor; [reflexivity | apply IH].
  - rewrite trace_bind. simpl. constructor; [reflexivity|].
    rewrite trace_bind.
    destruct (sqlite_connect w (docset_uri d)) as [f|st]; simpl; [constructor|].
    rewrite trace_bind. apply Forall_app. split; [apply fetch_rows_events|].
    destruct (result (fetch_rows (docset_uri d) st)) as [e|rows]; [constructor|].
    rewrite trace_bind, insert_rows_silent. simpl.
    destruct (result (insert_rows d idx rows)); [constructor | apply IH].
Qed.

(** A merge ends with an index, a store failure or a type error. *)
Lemma merge_loop_exn docsets : forall idx,
  merge_exn (result (merge_loop w docsets idx)) = true.
Proof.
  induction docsets as [|d rest IH]; intro idx; [reflexivity|].
  rewrite merge_loop_cons. destruct (negb _).
  - rewrite result_bind. simpl. apply IH.
  - rewrite result_bind. simpl. rewrite result_bind.
    destruct (sqlite_connect w (docset_uri d)) as [f|st]; simpl; [reflexivity|].
    rewrite result_bind.
    pose proof (fetch_rows_exn (docset_uri d) st) as Hf.
    destruct (result (fetch_rows (docset_uri d) st)) as [[]|rows];
      try contradiction; try reflexivity.
    rewrite result_bind.
    pose proof (insert_rows_exn d rows idx) as Hi.
    destruct (result (insert_rows d idx rows)) as [e|idx']; [exact Hi | apply IH].
Qed.

End MergeFacts.

(** * The end-to-end run of the specification

    Docset [A] has the modern schema and one entry, docset [B] the
    legacy schema and one entry. *)

Example end_to_end :
  let w := world_of
             [("A.docset"%string,
               modern_store [(Text "foo", Text "Method", Text "a.html")]);
              ("B.docset"%string, legacy_store legacy_bar)]
             (Completed 130 "") in
  result (merge_docsets w [parse "A.docset"; parse "B.docset"]) =
  inr [mkEntry (Text "foo") (Text "Method") "A"
         "A.docset/Contents/Resources/Documents/a.html";
       mkEntry (Text "bar") (Text "Class") "B"
         "B.docset/Contents/Resources/Documents/b.html#anchor1"].
Proof. reflexivity. Qed.

(** * Path normalisation *)

Section RegexFacts.

(** Where there is no [>] left, the rest of the pattern cannot match. *)
Lemma dotstar_no_gt (s : string) :
  has_char ">" s = false -> Re.dotstar Re.closing s = None.
Proof.
  induction s as [|c s IH]; [reflexivity|].
  simpl. intro H. apply orb_false_iff in H. destruct H as [Hc Hs].
  rewrite (IH Hs).
  assert (Hk : Re.closing (String c s) = None).
  { unfold Re.closing. cbn [Re.lit]. rewrite Ascii.eqb_sym, Hc. reflexivity. }
  rewrite Hk. now destruct (Re.dot c).
Qed.

(** The star runs to the last [>] of the line: whatever [a] holds,
    further [>] included, is consumed. *)
Lemma dotstar_greedy (a b : string) :
  has_char "010" a = false -> has_char ">" b = false ->
  Re.dotstar Re.closing (a ++ String ">" b) = Some (String.length a + 1).
Proof.
  intros Ha Hb. induction a as [|c a IH].
  - simpl. rewrite (dotstar_no_gt b Hb). reflexivity.
  - simpl in Ha. apply orb_false_iff in Ha. destruct Ha as [Hc Ha].
    simpl. unfold Re.dot. rewrite Hc. simpl. now rewrite (IH Ha).
Qed.

Lemma lit_prefix (p : string) (k : Re.matcher) (s : string) :
  Re.lit p k (p ++ s) = option_map (Nat.add (String.length p)) (k s).
Proof.
  induction p as [|c p IH]; cbn [Re.lit append String.length].
  - now destruct (k s).
  - rewrite Ascii.eqb_refl, IH. now destruct (k s).
Qed.

Lemma dash_entry_needs_gt (s : string) :
  has_char ">" s = false -> Re.dash_entry s = None.
Proof.
  intro H. unfold Re.dash_entry.
  assert (G : forall p t, has_char ">" t = false ->
                          Re.lit p (Re.dotstar Re.closing) t = None).
  { induction p as [|x p IH]; intros t Ht; simpl.
    - now apply dotstar_no_gt.
    - destruct t as [|c t]; [reflexivity|].
      simpl in Ht. apply orb_false_iff in Ht. destruct Ht as [_ Ht].
      destruct (Ascii.eqb x c); [|reflexivity]. now rewrite (IH t Ht). }
  now apply G.
Qed.

Lemma sub_empty_cons0 (pat : Re.matcher) (c : ascii) (s : string) :
  Re.sub_empty pat 0 (String c s) =
  match pat (String c s) with
  | Some (S k) => Re.sub_empty pat k s
  | _ => String c (Re.sub_empty pat 0 s)
  end.
Proof. reflexivity. Qed.

Lemma sub_empty_no_gt (s : string) :
  has_char ">" s = false -> Re.sub_empty Re.dash_entry 0 s = s.
Proof.
  induction s as [|c s IH]; [reflexivity|]. intro H.
  rewrite sub_empty_cons0, (dash_entry_needs_gt _ H).
  simpl in H. apply orb_false_iff in H. destruct H as [_ H].
  now rewrite (IH H).
Qed.

Lemma sub_empty_skip (pat : Re.matcher) (a b : string) :
  Re.sub_empty pat (String.length a) (a ++ b) = Re.sub_empty pat 0 b.
Proof.
  induction a as [|c a IH]; [reflexivity|]. simpl. exact IH.
Qed.

(** What the substitution does to a path that starts with a marker:
    everything up to the last [>] goes, marker or not. *)
Lemma strip_dash_entry_greedy (a b : string) :
  has_char "010" a = false -> has_char ">" b = false ->
  Re.strip_dash_entry ("<dash_entry_" ++ a ++ String ">" b) = b.
Proof.
  intros Ha Hb. unfold Re.strip_dash_entry.
  set (m := ("dash_entry_" ++ a ++ ">")%string).
  assert (Hs : ("<dash_entry_" ++ a ++ String ">" b)%string
               = String "<" (m ++ b)).
  { unfold m. rewrite !append_assoc. reflexivity. }
  assert (Hm : Re.dash_entry (String "<" (m ++ b)) = Some (S (String.length m))).
  { rewrite <- Hs. unfold Re.dash_entry. rewrite lit_prefix.
    rewrite (dotstar_greedy a b Ha Hb). unfold m.
    rewrite !length_append. simpl. f_equal. }
  rewrite Hs, sub_empty_cons0, Hm, sub_empty_skip.
  now apply sub_empty_no_gt.
Qed.

End RegexFacts.

(** C1. The claim: stripping [<dash_entry_foo>middle<dash_entry_bar>]
    removes the two markers one by one and yields [middle].  The code:
    the star of [<dash_entry_.*>] is greedy, the one match runs from
    the first marker to the last [>], and the result is the empty
    string; the text between the markers is lost. *)
Theorem strip_two_markers_loses_interior :
  Re.dash_entry "<dash_entry_foo>middle<dash_entry_bar>" = Some 38
  /\ Re.strip_dash_entry "<dash_entry_foo>middle<dash_entry_bar>" = ""%string
  /\ Re.strip_dash_entry "<dash_entry_foo>middle<dash_entry_bar>"
     <> "middle"%string.
Proof. repeat split; try reflexivity. discriminate. Qed.

(** C5. The path of an entry is the documents root of its docset, a
    separator, and the cleaned raw path, concatenated as strings: the
    documents root is always the beginning of the result, also when
    the raw path begins with a separator, and [/Foo/Bar.html] under
    [/docset] gives
    [/docset/Contents/Resources/Documents//Foo/Bar.html]. *)
Theorem entry_path_is_plain_concatenation :
  (forall (d : Path) (index : list Entry) (nm ty : value) (raw : string),
      insert_row d index (nm, ty, Text raw) =
      ret (index ++ [mkEntry nm ty (stem d)
                       (documents_root d ++ "/" ++ Re.strip_dash_entry raw)])
      /\ startswith
           (documents_root d ++ "/" ++ Re.strip_dash_entry raw)
           (documents_root d ++ "/") = true)
  /\ documents_root (parse "/docset") = "/docset/Contents/Resources/Documents"%string
  /\ Re.strip_dash_entry "/Foo/Bar.html" = "/Foo/Bar.html"%string
  /\ result (insert_row (parse "/docset") []
               (Text "Bar", Text "Class", Text "/Foo/Bar.html")) =
     inr [mkEntry (Text "Bar") (Text "Class") "docset"
            "/docset/Contents/Resources/Documents//Foo/Bar.html"].
Proof.
  split; [|repeat split; reflexivity].
  intros d index nm ty raw. split; [reflexivity|].
  rewrite <- append_assoc. apply startswith_append.
Qed.

(** * The legacy query *)

Section LegacyFacts.

Lemma on_eq_true (pk : Z) (ref : option Z) :
  on_eq pk ref = true <-> ref = Some pk.
Proof.
  destruct ref as [k|]; simpl.
  - rewrite Z.eqb_eq. split; [now intros -> | now intros [= ->]].
  - split; discriminate.
Qed.

(** A join step visits the referenced rows. *)
Lemma join_on_referenced {A B : Type} (key : A -> Z) (table : list A)
    (ref : option Z) (k : A -> list B) :
  join_on table (fun a => on_eq (key a) ref) k =
  flat_map k (referenced key table ref).
Proof.
  unfold join_on, referenced.
  induction table as [|a table IH]; [reflexivity|].
  simpl. destruct (on_eq (key a) ref); simpl; now rewrite IH.
Qed.


Lemma legacy_query_by_token (db : legacy_db) :
  legacy_query db = flat_map (token_rows db) (ztoken db).
Proof. reflexivity. Qed.


(** Whatever the store holds, a row of the query belongs to a token. *)
Lemma token_rows_sound (db : legacy_db) (t : ztoken_row) (r : row) :
  In r (token_rows db t) -> row_of db t r.
Proof.
  unfold token_rows. rewrite join_on_referenced.
  intro H. apply in_flat_map in H. destruct H as (m & Hm & H).
  rewrite join_on_referenced in H.
  apply in_flat_map in H. destruct H as (f & Hf & H).
  rewrite join_on_referenced in H.
  apply in_flat_map in H. destruct H as (ty & Hty & [H|[]]).
  apply filter_In in Hm, Hf, Hty.
  destruct Hm as [Hm Em], Hf as [Hf Ef], Hty as [Hty Ety].
  apply on_eq_true in Em, Ef, Ety.
  exists m, f, ty. intuition.
Qed.





(** Also without the assumption on the references, the rows of the
    query are rows of tokens. *)
Lemma legacy_query_sound (db : legacy_db) (r : row) :
  In r (legacy_query db) -> exists t, In t (ztoken db) /\ row_of db t r.
Proof.
  rewrite legacy_query_by_token. intro H.
  apply in_flat_map in H. destruct H as (t & Ht & H).
  exists t. split; [exact Ht | now apply token_rows_sound].
Qed.

End LegacyFacts.



(** * Where the store and the documents of a docset are *)

Section LocationFacts.

Lemma join_app (sep : string) (a b : list string) :
  a <> [] -> b <> [] ->
  join sep (a ++ b) = (join sep a ++ sep ++ join sep b)%string.
Proof.
  intros Ha Hb. induction a as [|x a IH]; [contradiction|].
  destruct a as [|y a].
  - destruct b; [contradiction | reflexivity].
  - change (join sep ((x :: y :: a) ++ b))
      with (x ++ sep ++ join sep ((y :: a) ++ b))%string.
    rewrite IH by discriminate.
    change (join sep (x :: y :: a)) with (x ++ sep ++ join sep (y :: a))%string.
    now rewrite !append_assoc.
Qed.

(** Below a docset with at least one component, a relative location
    is the docset path, a separator and the location. *)
Lemma str_truediv (d : Path) (seg : string) :
  tail d <> [] -> root (parse seg) = ""%string -> tail (parse seg) <> [] ->
  str (truediv d seg) =
  (str d ++ "/" ++ join "/" (tail (parse seg)))%string.
Proof.
  intros Hd Hr Hs. unfold truediv. rewrite Hr. unfold str. simpl root. simpl tail.
  destruct (tail d) as [|x t]; [contradiction|].
  destruct (tail (parse seg)) as [|y u]; [contradiction|].
  assert (J : join "/" ((x :: t) ++ y :: u)
              = (join "/" (x :: t) ++ "/" ++ join "/" (y :: u))%string)
    by (apply join_app; discriminate).
  change ((x :: t) ++ y :: u) with (x :: (t ++ y :: u)) in *.
  destruct (root d); rewrite J; now rewrite ?append_assoc.
Qed.

Lemma docset_db_path_location (d : Path) :
  tail d <> [] ->
  str (docset_db_path d) = (str d ++ "/Contents/Resources/docSet.dsidx")%string.
Proof.
  intro Hd. unfold docset_db_path.
  rewrite str_truediv; [reflexivity | exact Hd | reflexivity | discriminate].
Qed.

Lemma documents_root_location (d : Path) :
  tail d <> [] ->
  documents_root d = (str d ++ "/Contents/Resources/Documents")%string.
Proof.
  intro Hd. unfold documents_root.
  rewrite str_truediv; [reflexivity | exact Hd | reflexivity | discriminate].
Qed.

End LocationFacts.

(** * The merge *)

(** C7. A merge never removes or overwrites an entry of the index:
    whatever the docsets, the index it ends with is the index it
    started from followed by new entries.  Two docsets that each hold
    [map] of kind [Function] give two distinct entries, both in the
    index, tagged [A] and [B]. *)
Theorem merge_only_appends :
  (forall (w : world) (docsets : list Path) (index index' : list Entry)
          (t : list event),
      merge_loop w docsets index = (t, inr index') ->
      exists new, index' = index ++ new)
  /\ (let w := world_of [("A.docset"%string, modern_store [map_row]);
                         ("B.docset"%string, modern_store [map_row])]
                        (Completed 130 "") in
      let in_A := mkEntry (Text "map") (Text "Function") "A"
                    "A.docset/Contents/Resources/Documents/map.html" in
      let in_B := mkEntry (Text "map") (Text "Function") "B"
                    "B.docset/Contents/Resources/Documents/map.html" in
      result (merge_docsets w [parse "A.docset"]) = inr [in_A]
      /\ result (merge_docsets w [parse "A.docset"; parse "B.docset"])
         = inr [in_A; in_B]
      /\ in_A <> in_B).
Proof.
  split.
  - intros w docsets index index' t H. exact (merge_loop_extends w _ _ _ _ H).
  - cbv zeta. repeat split; try reflexivity. discriminate.
Qed.

Lemma merge_only_appends_witness :
  let w := world_of [("B.docset"%string, legacy_store legacy_bar)]
                    (Completed 130 "") in
  let old := mkEntry (Text "foo") (Text "Method") "A" "A.docset/a.html" in
  let bar := mkEntry (Text "bar") (Text "Class") "B"
               "B.docset/Contents/Resources/Documents/b.html#anchor1" in
  result (merge_loop w [parse "B.docset"] [old]) = inr [old; bar]
  /\ exists new, [old; bar] = [old] ++ new.
Proof.
  cbv zeta. split; [reflexivity|].
  apply (proj1 merge_only_appends
           (world_of [("B.docset"%string, legacy_store legacy_bar)]
                     (Completed 130 ""))
           [parse "B.docset"]
           [mkEntry (Text "foo") (Text "Method") "A" "A.docset/a.html"]
           [mkEntry (Text "foo") (Text "Method") "A" "A.docset/a.html";
            mkEntry (Text "bar") (Text "Class") "B"
              "B.docset/Contents/Resources/Documents/b.html#anchor1"]
           [Connect (docset_uri (parse "B.docset"));
            Execute (docset_uri (parse "B.docset")) SelectSearchIndex;
            Execute (docset_uri (parse "B.docset")) SelectZToken]).
  reflexivity.
Defined.



(** C2, as the specification has it, fails: docset [A] has a store
    that answers neither query, docset [B] is sound.  [B] alone merges;
    [A] followed by [B] ends with the failure of [A], without an
    index, and the store of [B] is never opened. *)
Lemma failing_docset_aborts_the_batch :
  let w := world_of [("A.docset"%string, broken_store);
                     ("B.docset"%string, modern_store [map_row])]
                    (Completed 130 "") in
  let in_B := mkEntry (Text "map") (Text "Function") "B"
                "B.docset/Contents/Resources/Documents/map.html" in
  result (merge_docsets w [parse "B.docset"]) = inr [in_B]
  /\ result (merge_docsets w [parse "A.docset"; parse "B.docset"])
     = inl (SqliteError (NoSuchTable "ztoken"))
  /\ ~ In (Connect (docset_uri (parse "B.docset")))
          (trace (merge_docsets w [parse "A.docset"; parse "B.docset"]))
  /\ ~ (exists index,
           result (merge_docsets w [parse "A.docset"; parse "B.docset"])
           = inr index /\ In in_B index).
Proof.
  cbv zeta. split; [reflexivity|]. split; [reflexivity|]. split.
  - vm_compute. intros [H|[H|[H|[]]]]; discriminate.
  - intros (index & H & _). vm_compute in H. discriminate.
Qed.

(** C2, amended.  When the store of a docset is present and its
    extraction fails, the failure leaves [merge_docsets]: the merge
    ends with that exception and without an index, whatever the
    docsets before it had contributed, and the docsets after it are not
    read. *)
Theorem extraction_failure_propagates (w : world) (pre post : list Path)
    (d : Path) (st : store) (index : list Entry) (t tq : list event)
    (e : exn) :
  merge_docsets w pre = (t, inr index) ->
  path_exists w (str (docset_db_path d)) = true ->
  sqlite_connect w (docset_uri d) = inr st ->
  fetch_rows (docset_uri d) st = (tq, inl e) ->
  merge_docsets w (pre ++ d :: post) =
    (t ++ Connect (docset_uri d) :: tq, inl e).
Proof.
  intros Hpre Hex Hconn Hfetch. unfold merge_docsets in *.
  rewrite merge_loop_app, (bind_ok _ _ _ _ Hpre).
  rewrite merge_loop_cons, Hex. simpl negb. cbv iota.
  rewrite Hconn. simpl of_sqlite.
  unfold emit. simpl bind at 1.
  rewrite bind_ret_l, (bind_fail _ _ _ _ Hfetch). reflexivity.
Qed.

Lemma extraction_failure_propagates_witness :
  let w := world_of [("A.docset"%string, broken_store);
                     ("B.docset"%string, modern_store [map_row])]
                    (Completed 130 "") in
  merge_docsets w ([parse "B.docset"] ++ parse "A.docset" :: [parse "B.docset"])
  = ([Connect (docset_uri (parse "B.docset"));
      Execute (docset_uri (parse "B.docset")) SelectSearchIndex]
     ++ Connect (docset_uri (parse "A.docset"))
     :: [Execute (docset_uri (parse "A.docset")) SelectSearchIndex;
         Execute (docset_uri (parse "A.docset")) SelectZToken],
     inl (SqliteError (NoSuchTable "ztoken"))).
Proof.
  cbv zeta.
  apply (extraction_failure_propagates _ _ _ _ broken_store
           [mkEntry (Text "map") (Text "Function") "B"
              "B.docset/Contents/Resources/Documents/map.html"]);
    reflexivity.
Defined.

(** C3, as the specification has it, fails: the modern query on a
    locked store fails with [database is locked], which is no missing
    table or column, and the legacy query is sent all the same. *)
Lemma fallback_on_locked_store :
  select_searchIndex locked_store = inl Busy
  /\ missing_relation Busy = false
  /\ In (Execute "uri" SelectZToken) (trace (fetch_rows "uri" locked_store))
  /\ ~ (In (Execute "uri" SelectZToken) (trace (fetch_rows "uri" locked_store))
        <-> exists f, select_searchIndex locked_store = inl f
                      /\ missing_relation f = true).
Proof.
  split; [reflexivity|]. split; [reflexivity|].
  assert (H : In (Execute "uri" SelectZToken)
                 (trace (fetch_rows "uri" locked_store)))
    by (right; left; reflexivity).
  split; [exact H|].
  intros [Hto _]. destruct (Hto H) as (f & Hf & Hm).
  inversion Hf; subst. discriminate.
Qed.

(** C3, amended.  The legacy query is attempted if and only if the
    modern query fails, at [execute], with an exception of class
    [OperationalError]: a missing table or column, but also a locked
    database, a denied permission, a file that cannot be opened or an
    I/O error.  A failure of another class, a corrupt database among
    them, does not trigger the fallback and propagates; so does any
    failure of [fetchall], which is outside the [try]. *)
Theorem fallback_iff_operational_error (uri : string) (st : store) :
  (In (Execute uri SelectZToken) (trace (fetch_rows uri st))
   <-> exists f, select_searchIndex st = inl f
                 /\ class_of f = OperationalError)
  /\ (forall f, select_searchIndex st = inl f ->
                class_of f = DatabaseError ->
                fetch_rows uri st
                = ([Execute uri SelectSearchIndex], inl (SqliteError f)))
  /\ (forall f, select_searchIndex st = inr (inl f) ->
                fetch_rows uri st
                = ([Execute uri SelectSearchIndex], inl (SqliteError f)))
  /\ (forall f, missing_relation f = true -> class_of f = OperationalError)
  /\ class_of Busy = OperationalError
  /\ class_of Perm = OperationalError
  /\ class_of Corrupt = DatabaseError.
Proof.
  split; [|split; [|split; [|split; [|repeat split]]]].
  - unfold fetch_rows, open_cursor, execute, of_sqlite.
    destruct (select_searchIndex st) as [f|[f|rows]]; simpl.
    + destruct (class_of f) eqn:Ec; simpl.
      * split; [intros _; now exists f|]. intros _.
        destruct (select_ztoken st) as [f'|[f'|rows]]; simpl; right; now left.
      * split.
        -- intros [H|[]]; discriminate.
        -- intros (f' & Hf & Hc). inversion Hf; subst. congruence.
    + split.
      * intros [H|[]]; discriminate.
      * intros (f' & Hf & _). discriminate.
    + split.
      * intros [H|[]]; discriminate.
      * intros (f & Hf & _). discriminate.
  - intros f Hf Hc. unfold fetch_rows, open_cursor, execute, of_sqlite.
    rewrite Hf. simpl. rewrite Hc. reflexivity.
  - intros f Hf. unfold fetch_rows, open_cursor, execute, of_sqlite.
    rewrite Hf. reflexivity.
  - intros [] H; try discriminate; reflexivity.
Qed.

(** * The selector and the process *)

Section MainFacts.

Variable w : world.


Lemma main_with_docsets (argv0 : string) (args : list string) :
  filter is_docset_arg args <> [] ->
  main w argv0 args =
  bind (merge_docsets w (map parse (filter is_docset_arg args)))
       (fun db => bind (launch_fzf w db) finish).
Proof.
  intro H. unfold main.
  destruct args as [|a args]; [now contradiction H|].
  simpl Nat.ltb. cbv iota.
  destruct (filter is_docset_arg (a :: args)) as [|x l]; [now contradiction H|].
  reflexivity.
Qed.

Lemma main_without_docsets (argv0 : string) (args : list string) :
  filter is_docset_arg args = [] ->
  main w argv0 args =
  ([Log ERROR match args with
              | [] => ("Usage: " ++ argv0 ++ " <docset1> <docset2> ...")%string
              | _ => "No docsets provided."%string
              end],
   inl (SystemExit 1)).
Proof.
  intro H. unfold main. destruct args as [|a args]; [reflexivity|].
  simpl Nat.ltb. cbv iota. rewrite H. reflexivity.
Qed.

(** Filtering what was filtered changes nothing. *)
Lemma filter_again {X : Type} (f : X -> bool) (l : list X) :
  filter f (filter f l) = filter f l.
Proof.
  induction l as [|a l IH]; [reflexivity|].
  simpl. destruct (f a) eqn:E; [|exact IH].
  simpl. now rewrite E, IH.
Qed.

Lemma merge_trace_no_fzf (t : list event) (input : string) :
  Forall (fun e => merge_event e = true) t -> ~ In (RunFzf input) t.
Proof.
  intros H Hin. rewrite Forall_forall in H. now specialize (H _ Hin).
Qed.

Lemma merge_trace_no_print (t : list event) (p : string) :
  Forall (fun e => merge_event e = true) t -> ~ In (Print p) t.
Proof.
  intros H Hin. rewrite Forall_forall in H. now specialize (H _ Hin).
Qed.

End MainFacts.




(** * The arguments *)

(** C9. An argument that fails the suffix test of [main] -- it does
    not end in [.docset], one trailing separator set aside -- is left
    out, without a diagnostic and without an error: the run is the one
    of the surviving arguments alone.  When none survives, the run
    logs one error and exits with status 1, and no docset store is
    opened. *)
Theorem non_docset_arguments_are_dropped (w : world) (argv0 : string)
    (args : list string) :
  (forall arg, endswith arg ".docset" = false ->
               endswith arg ".docset/" = false ->
               ~ In arg (filter is_docset_arg args))
  /\ (filter is_docset_arg args <> [] ->
      main w argv0 args = main w argv0 (filter is_docset_arg args))
  /\ (filter is_docset_arg args = [] ->
      (exists msg, main w argv0 args = ([Log ERROR msg], inl (SystemExit 1)))
      /\ (args <> [] ->
          main w argv0 args =
            ([Log ERROR "No docsets provided."], inl (SystemExit 1)))
      /\ exit_status (result (main w argv0 args)) = 1%Z
      /\ forall uri, ~ In (Connect uri) (trace (main w argv0 args))).
Proof.
  split; [|split].
  - intros arg H1 H2 Hin. apply filter_In in Hin. destruct Hin as [_ Hin].
    apply is_docset_arg_iff in Hin. destruct Hin as [s [-> | ->]].
    + now rewrite endswith_append in H1.
    + now rewrite endswith_append in H2.
  - intro H. rewrite !main_with_docsets.
    + now rewrite filter_again.
    + now rewrite filter_again.
    + exact H.
  - intro H. rewrite (main_without_docsets w argv0 args H).
    split; [eexists; reflexivity|].
    split; [destruct args; [intro; contradiction | reflexivity]|].
    split; [reflexivity|].
    intros uri [Hin|[]]. discriminate.
Qed.

Lemma non_docset_arguments_are_dropped_witness :
  let w := world_of [("Foo.docset"%string, modern_store [map_row])]
                    (Completed 130 "") in
  filter is_docset_arg ["notes.txt"%string; "Foo.docset"%string; "Foo.zip"%string]
    = ["Foo.docset"%string]
  /\ main w "dashp" ["notes.txt"%string; "Foo.docset"%string; "Foo.zip"%string]
     = main w "dashp" ["Foo.docset"%string]
  /\ filter is_docset_arg ["notes.txt"%string; "Foo.docset//"%string] = []
  /\ main w "dashp" ["notes.txt"%string; "Foo.docset//"%string]
     = ([Log ERROR "No docsets provided."], inl (SystemExit 1)).
Proof.
  cbv zeta. split; [reflexivity|]. split.
  - apply (proj1 (proj2 (non_docset_arguments_are_dropped
             (world_of [("Foo.docset"%string, modern_store [map_row])]
                       (Completed 130 ""))
             "dashp"
             ["notes.txt"%string; "Foo.docset"%string; "Foo.zip"%string]))).
    vm_compute. discriminate.
  - split; [reflexivity|].
    apply (proj2 (proj2 (non_docset_arguments_are_dropped
             (world_of [("Foo.docset"%string, modern_store [map_row])]
                       (Completed 130 ""))
             "dashp" ["notes.txt"%string; "Foo.docset//"%string]))).
    + reflexivity.
    + discriminate.
Defined.



(** * Further properties of the merge *)

Section MergeContents.

Variable w : world.

(** Rows with text paths become their entries, in order. *)
Lemma insert_rows_text (d : Path) (rows : list row) (es : list Entry) :
  Forall2 (row_entry d) rows es ->
  forall idx, insert_rows d idx rows = ([], inr (idx ++ es)).
Proof.
  induction 1 as [|r e rows es Hr _ IH]; intro idx.
  - simpl. now rewrite app_nil_r.
  - destruct Hr as (nm & ty & raw & -> & ->).
    cbn [insert_rows]. unfold insert_row, re_sub_path.
    rewrite !bind_ret_l, IH, <- app_assoc. reflexivity.
Qed.

(** A row without a path stops the insertion with a type error. *)
Lemma insert_rows_null (d : Path) (rows : list row) (nm ty : value) :
  In (nm, ty, Null) rows ->
  forall idx, insert_rows d idx rows = ([], inl TypeError).
Proof.
  induction rows as [|r rows IH]; intros Hin idx; [destruct Hin|].
  cbn [insert_rows]. destruct r as [[n t] [|p]]; [reflexivity|].
  destruct Hin as [Hin|Hin]; [discriminate|].
  unfold insert_row, re_sub_path. rewrite !bind_ret_l. now apply IH.
Qed.

Lemma startswith_root (a b : string) :
  startswith (a ++ "/" ++ b) (a ++ "/") = true.
Proof. rewrite <- append_assoc. apply startswith_append. Qed.

Lemma insert_rows_from (d : Path) (rows : list row) : forall idx t idx',
  insert_rows d idx rows = (t, inr idx') ->
  exists new, idx' = idx ++ new /\ Forall (entry_from d) new.
Proof.
  induction rows as [|r rows IH]; intros idx t idx' H.
  - inversion H; subst. exists []. now rewrite app_nil_r.
  - simpl in H. destruct r as [[n ty] [|p]]; [discriminate|].
    unfold insert_row, re_sub_path in H. rewrite !bind_ret_l in H.
    apply IH in H. destruct H as (new & -> & Hall).
    eexists (_ :: new). rewrite <- app_assoc. split; [reflexivity|].
    constructor; [|exact Hall]. split; [reflexivity|].
    apply startswith_root.
Qed.

(** One turn of the loop for a docset whose store is there. *)
Lemma merge_loop_present (d : Path) (rest : list Path) (idx : list Entry) :
  path_exists w (str (docset_db_path d)) = true ->
  merge_loop w (d :: rest) idx =
  bind (emit (Connect (docset_uri d))) (fun _ =>
  bind (of_sqlite (sqlite_connect w (docset_uri d))) (fun docset_db =>
  bind (fetch_rows (docset_uri d) docset_db) (fun rows =>
  bind (insert_rows d idx rows) (fun idx' =>
  merge_loop w rest idx')))).
Proof. intro H. now rewrite merge_loop_cons, H. Qed.

Lemma merge_loop_absent (d : Path) (rest : list Path) (idx : list Entry) :
  path_exists w (str (docset_db_path d)) = false ->
  merge_loop w (d :: rest) idx =
  bind (emit (Log WARNING
                ("Database not found for docset: " ++ str d)%string))
       (fun _ => merge_loop w rest idx).
Proof. intro H. now rewrite merge_loop_cons, H. Qed.



End MergeContents.

(** X1. When every docset of the list can be read -- its store file
    is absent, or the store opens, answers one of the queries, and all
    its rows have a text path -- the merge ends with the index it
    started from followed by the entries of the docsets, docset after
    docset in the order of the list, and row after row in the order of
    the store. *)
Theorem merged_index_is_concatenation (w : world) (docsets : list Path)
    (ess : list (list Entry)) :
  Forall2 (contributes w) docsets ess ->
  forall index,
    result (merge_loop w docsets index) = inr (index ++ List.concat ess).
Proof.
  induction 1 as [|d es docsets ess Hd _ IH]; intro index.
  - simpl. now rewrite app_nil_r.
  - destruct Hd as [[Hex ->] | (Hex & st & t & rows & Hconn & Hfetch & Hrows)].
    + rewrite (merge_loop_absent w _ _ _ Hex), result_bind. simpl.
      apply IH.
    + rewrite (merge_loop_present w _ _ _ Hex), result_bind. simpl.
      rewrite Hconn, result_bind. simpl.
      rewrite result_bind, Hfetch. simpl.
      rewrite result_bind, (insert_rows_text d rows es Hrows). simpl.
      rewrite IH, <- app_assoc. reflexivity.
Qed.

Lemma merged_index_is_concatenation_witness :
  let w := world_of
             [("A.docset"%string,
               modern_store [(Text "foo", Text "Method", Text "a.html")]);
              ("B.docset"%string, legacy_store legacy_bar)]
             (Completed 130 "") in
  result (merge_loop w [parse "A.docset"; parse "C.docset"; parse "B.docset"] [])
  = inr ([] ++ List.concat
           [[mkEntry (Text "foo") (Text "Method") "A"
               "A.docset/Contents/Resources/Documents/a.html"];
            [];
            [mkEntry (Text "bar") (Text "Class") "B"
               "B.docset/Contents/Resources/Documents/b.html#anchor1"]]).
Proof.
  cbv zeta. apply merged_index_is_concatenation.
  constructor; [|constructor; [|constructor; [|constructor]]].
  - right. split; [reflexivity|].
    exists (modern_store [(Text "foo", Text "Method", Text "a.html")]).
    eexists. eexists. split; [reflexivity|]. split; [reflexivity|].
    constructor; [|constructor].
    exists (Text "foo"), (Text "Method"), "a.html"%string.
    split; reflexivity.
  - left. split; reflexivity.
  - right. split; [reflexivity|].
    exists (legacy_store legacy_bar).
    eexists. eexists. split; [reflexivity|]. split; [reflexivity|].
    constructor; [|constructor].
    exists (Text "bar"), (Text "Class"), "b.html#anchor1"%string.
    split; reflexivity.
Defined.

(** X2. A row whose path is NULL stops the merge: [re.sub] raises a
    type error on it, which nothing catches.  The merge ends with that
    error and without an index, and the docsets that follow are not
    read. *)
Theorem null_path_aborts_merge (w : world) (d : Path) (rest : list Path)
    (index : list Entry) (st : store) (tq : list event) (rows : list row)
    (nm ty : value) :
  path_exists w (str (docset_db_path d)) = true ->
  sqlite_connect w (docset_uri d) = inr st ->
  fetch_rows (docset_uri d) st = (tq, inr rows) ->
  In (nm, ty, Null) rows ->
  merge_loop w (d :: rest) index = (Connect (docset_uri d) :: tq, inl TypeError).
Proof.
  intros Hex Hconn Hfetch Hin.
  rewrite (merge_loop_present w _ _ _ Hex), Hconn.
  rewrite (bind_ok (emit (Connect (docset_uri d))) _ _ tt eq_refl).
  change (of_sqlite (inr st)) with (ret (A:=store) st).
  rewrite bind_ret_l, (bind_ok _ _ _ _ Hfetch).
  rewrite (insert_rows_null d rows nm ty Hin). simpl.
  now rewrite app_nil_r.
Qed.

Lemma null_path_aborts_merge_witness :
  let w := world_of
             [("A.docset"%string,
               modern_store [map_row; (Text "gap", Text "Guide", Null)]);
              ("B.docset"%string, modern_store [map_row])]
             (Completed 130 "") in
  merge_loop w [parse "A.docset"; parse "B.docset"] [] =
    (Connect (docset_uri (parse "A.docset"))
       :: [Execute (docset_uri (parse "A.docset")) SelectSearchIndex],
     inl TypeError).
Proof.
  cbv zeta.
  apply (null_path_aborts_merge _ _ _ _
           (modern_store [map_row; (Text "gap", Text "Guide", Null)])
           _ [map_row; (Text "gap", Text "Guide", Null)]
           (Text "gap") (Text "Guide")).
  - reflexivity.
  - reflexivity.
  - reflexivity.
  - right. left. reflexivity.
Defined.

(** X3. When the merge raises, [main] ends there: the exception
    reaches the top unchanged, the exit status is 1, the selector is
    never started and nothing is printed. *)
Theorem merge_failure_ends_main (w : world) (argv0 : string)
    (args : list string) (tm : list event) (e : exn) :
  filter is_docset_arg args <> [] ->
  merge_docsets w (map parse (filter is_docset_arg args)) = (tm, inl e) ->
  main w argv0 args = (tm, inl e)
  /\ exit_status (result (main w argv0 args)) = 1%Z
  /\ (forall input, ~ In (RunFzf input) (trace (main w argv0 args)))
  /\ (forall p, ~ In (Print p) (trace (main w argv0 args))).
Proof.
  intros Hargs Hmerge.
  assert (Hmain : main w argv0 args = (tm, inl e)).
  { rewrite (main_with_docsets w argv0 args Hargs).
    apply (bind_fail _ _ _ _ Hmerge). }
  pose proof (merge_loop_events w (map parse (filter is_docset_arg args)) [])
    as Hev.
  pose proof (merge_loop_exn w (map parse (filter is_docset_arg args)) [])
    as Hexn.
  fold (merge_docsets w (map parse (filter is_docset_arg args))) in Hev, Hexn.
  rewrite Hmerge in Hev, Hexn. unfold trace, result in Hev, Hexn.
  simpl in Hev, Hexn.
  rewrite Hmain. unfold trace, result. simpl fst. simpl snd.
  split; [reflexivity|]. split.
  - destruct e; try discriminate; reflexivity.
  - split; intros x Hin.
    + now apply merge_trace_no_fzf in Hin.
    + now apply merge_trace_no_print in Hin.
Qed.

Lemma merge_failure_ends_main_witness :
  let w := world_of [("A.docset"%string, broken_store)]
                    (Completed 0 "never asked") in
  main w "dashp" ["A.docset"%string] =
    ([Connect (docset_uri (parse "A.docset"));
      Execute (docset_uri (parse "A.docset")) SelectSearchIndex;
      Execute (docset_uri (parse "A.docset")) SelectZToken],
     inl (SqliteError (NoSuchTable "ztoken"))).
Proof.
  cbv zeta.
  apply (merge_failure_ends_main
           (world_of [("A.docset"%string, broken_store)]
                     (Completed 0 "never asked"))
           "dashp" ["A.docset"%string]).
  - vm_compute. discriminate.
  - reflexivity.
Defined.

Section MergeAccess.

Variable w : world.



Lemma merge_loop_from (docsets : list Path) : forall idx t idx',
  merge_loop w docsets idx = (t, inr idx') ->
  exists new,
    idx' = idx ++ new
    /\ Forall (fun e => exists d,
                 In d docsets
                 /\ path_exists w (str (docset_db_path d)) = true
                 /\ entry_from d e) new.
Proof.
  induction docsets as [|d rest IH]; intros idx t idx' H.
  - inversion H; subst. exists []. now rewrite app_nil_r.
  - destruct (path_exists w (str (docset_db_path d))) eqn:Hex.
    + rewrite (merge_loop_present w _ _ _ Hex) in H.
      apply bind_inv_ok in H. destruct H as (t1 & [] & t2 & _ & H & _).
      apply bind_inv_ok in H. destruct H as (t3 & st & t4 & _ & H & _).
      apply bind_inv_ok in H. destruct H as (t5 & rows & t6 & _ & H & _).
      apply bind_inv_ok in H. destruct H as (t7 & idx1 & t8 & Hins & H & _).
      apply insert_rows_from in Hins. destruct Hins as (new1 & -> & Hall1).
      apply IH in H. destruct H as (new2 & -> & Hall2).
      exists (new1 ++ new2). rewrite app_assoc. split; [reflexivity|].
      apply Forall_app. split.
      * eapply Forall_impl; [|exact Hall1]. intros e He.
        exists d. split; [now left | now split].
      * eapply Forall_impl; [|exact Hall2]. intros e (d' & Hd' & He).
        exists d'. split; [now right | exact He].
    + rewrite (merge_loop_absent w _ _ _ Hex) in H.
      apply bind_inv_ok in H. destruct H as (t1 & [] & t2 & _ & H & _).
      apply IH in H. destruct H as (new & -> & Hall).
      exists new. split; [reflexivity|].
      eapply Forall_impl; [|exact Hall]. intros e (d' & Hd' & He).
      exists d'. split; [now right | exact He].
Qed.

End MergeAccess.


(** X5. Every entry that a merge adds belongs to a docset of the list
    whose store file exists: it carries the stem of that docset as
    docset id, and its path begins with the documents root of that
    docset and a separator. *)
Theorem merged_entries_belong_to_docsets (w : world) (docsets : list Path)
    (index index' : list Entry) (t : list event) :
  merge_loop w docsets index = (t, inr index') ->
  exists new,
    index' = index ++ new
    /\ Forall (fun e => exists d,
                 In d docsets
                 /\ path_exists w (str (docset_db_path d)) = true
                 /\ docset e = stem d
                 /\ startswith (path e) (documents_root d ++ "/") = true) new.
Proof.
  intro H. destruct (merge_loop_from w _ _ _ _ H) as (new & -> & Hall).
  exists new. split; [reflexivity|].
  eapply Forall_impl; [|exact Hall].
  intros e (d & Hd & Hex & Hdoc & Hpath). exists d. auto.
Qed.

Lemma merged_entries_belong_to_docsets_witness :
  let w := world_of [("B.docset"%string, legacy_store legacy_bar)]
                    (Completed 130 "") in
  exists new,
    [mkEntry (Text "bar") (Text "Class") "B"
       "B.docset/Contents/Resources/Documents/b.html#anchor1"] = [] ++ new
    /\ Forall (fun e => exists d,
                 In d [parse "A.docset"; parse "B.docset"]
                 /\ path_exists w (str (docset_db_path d)) = true
                 /\ docset e = stem d
                 /\ startswith (path e) (documents_root d ++ "/") = true) new.
Proof.
  cbv zeta.
  apply (merged_entries_belong_to_docsets
           (world_of [("B.docset"%string, legacy_store legacy_bar)]
                     (Completed 130 ""))
           [parse "A.docset"; parse "B.docset"] []
           [mkEntry (Text "bar") (Text "Class") "B"
              "B.docset/Contents/Resources/Documents/b.html#anchor1"]
           [Log WARNING "Database not found for docset: A.docset";
            Connect (docset_uri (parse "B.docset"));
            Execute (docset_uri (parse "B.docset")) SelectSearchIndex;
            Execute (docset_uri (parse "B.docset")) SelectZToken]).
  reflexivity.
Defined.

(** * Further properties of the path normalisation *)

Section MarkerFacts.

Lemma markers_inner (rest : list string) : forall m p,
  (markers (m :: rest) ++ p)%string
  = ("<dash_entry_" ++ inner m rest ++ String ">" p)%string.
Proof.
  induction rest as [|m' rest IH]; intros m p.
  - cbn [markers inner]. unfold marker.
    rewrite append_nil_r, !append_assoc. reflexivity.
  - change (markers (m :: m' :: rest))
      with (marker m ++ markers (m' :: rest))%string.
    rewrite append_assoc, IH. unfold marker. cbn [inner].
    rewrite !append_assoc. reflexivity.
Qed.

Lemma inner_one_line (rest : list string) : forall m,
  Forall (fun x => has_char "010" x = false) (m :: rest) ->
  has_char "010" (inner m rest) = false.
Proof.
  induction rest as [|m' rest IH]; intros m H.
  - now inversion H.
  - inversion H as [|? ? Hm Hrest]; subst. cbn [inner].
    rewrite !has_char_append, Hm, (IH m' Hrest). reflexivity.
Qed.

End MarkerFacts.

(** X6. On the paths that Dash writes -- any number of markers one
    after the other, then the path itself -- the substitution removes
    all the markers and keeps the path, provided the path holds no
    [>] and no marker goes over a line end.  What is inside the
    markers does not matter. *)
Theorem leading_markers_are_removed (ms : list string) (p : string) :
  Forall (fun m => has_char "010" m = false) ms ->
  has_char ">" p = false ->
  Re.strip_dash_entry (markers ms ++ p) = p.
Proof.
  intros Hms Hp. destruct ms as [|m rest].
  - simpl. now apply sub_empty_no_gt.
  - rewrite markers_inner.
    apply strip_dash_entry_greedy; [now apply inner_one_line | exact Hp].
Qed.

Lemma leading_markers_are_removed_witness :
  Re.strip_dash_entry
    (markers ["name=vector"%string; "originalName=std::vector<T>"%string;
              "menuDescription=vector"%string]
     ++ "cpp/container/vector.html#push_back")
  = "cpp/container/vector.html#push_back"%string.
Proof.
  apply leading_markers_are_removed.
  - repeat constructor.
  - reflexivity.
Defined.

(** * Further properties of the selector *)

Section StripFacts.







End StripFacts.




Section LineFacts.

(** Splitting at a separator splits the two sides. *)
Lemma split_append_sep (sep : ascii) (a b : string) :
  split sep (a ++ String sep b) = split sep a ++ split sep b.
Proof.
  induction a as [|c a IH]; simpl.
  - now rewrite Ascii.eqb_refl.
  - destruct (Ascii.eqb c sep); [now rewrite IH|].
    rewrite IH. destruct (split sep a) eqn:E; [|reflexivity].
    now apply split_not_nil in E.
Qed.

Lemma has_char_false_append (c : ascii) (a b : string) :
  has_char c (a ++ b) = false -> has_char c a = false /\ has_char c b = false.
Proof. rewrite has_char_append. apply orb_false_iff. Qed.

(** Lines without a line end, joined and split again. *)
Lemma split_join_lines (lines : list string) :
  lines <> [] ->
  Forall (fun l => has_char "010" l = false) lines ->
  split "010" (join newline lines) = lines.
Proof.
  induction lines as [|l rest IH]; intros Hne Hall; [contradiction|].
  inversion Hall as [|? ? Hl Hrest]; subst.
  destruct rest as [|l' rest].
  - simpl. now apply split_no_sep.
  - change (join newline (l :: l' :: rest))
      with (l ++ String "010" (join newline (l' :: rest)))%string.
    rewrite split_append_sep, (split_no_sep _ _ Hl), IH by (discriminate || assumption).
    reflexivity.
Qed.

End LineFacts.

(** X9. The selector gets one line per entry of the index, in the
    order of the index, when no entry holds a line end; and the last
    tab-separated field of the line of an entry, the one the selector
    is set to answer with, is the path of the entry when the path
    holds no tab. *)
Theorem selector_lines_match_entries (db : list Entry) :
  (db <> [] ->
   Forall (fun e => has_char "010" (fzf_line e) = false) db ->
   split "010" (join newline (map fzf_line db)) = map fzf_line db)
  /\ (forall e, In e db ->
        has_char "009" (path e) = false ->
        last (split "009" (fzf_line e)) ""%string = path e).
Proof.
  split.
  - intros Hne Hall. apply split_join_lines.
    + destruct db; [contradiction | discriminate].
    + now apply Forall_map.
  - intros e _ Hp. unfold fzf_line, tab.
    change (String "009" "" ++ path e)%string with (String "009" (path e)).
    rewrite <- !append_assoc.
    match goal with
    | |- last (split _ (?a ++ String ?c ?b)) _ = _ =>
        rewrite (split_append_sep c a b)
    end.
    rewrite (split_no_sep _ _ Hp). apply last_last.
Qed.

Lemma selector_lines_match_entries_witness :
  let db := [mkEntry (Text "map") (Text "Function") "A" "A.docset/map.html";
             mkEntry (Text "bar") (Text "Class") "B" "B.docset/b.html#x"] in
  split "010" (join newline (map fzf_line db)) = map fzf_line db
  /\ last (split "009" (fzf_line (mkEntry (Text "map") (Text "Function") "A"
                                    "A.docset/map.html"))) ""%string
     = "A.docset/map.html"%string.
Proof.
  cbv zeta. split.
  - apply (proj1 (selector_lines_match_entries
                    [mkEntry (Text "map") (Text "Function") "A" "A.docset/map.html";
                     mkEntry (Text "bar") (Text "Class") "B" "B.docset/b.html#x"])).
    + discriminate.
    + repeat constructor.
  - apply (proj2 (selector_lines_match_entries
                    [mkEntry (Text "map") (Text "Function") "A" "A.docset/map.html";
                     mkEntry (Text "bar") (Text "Class") "B" "B.docset/b.html#x"])).
    + left. reflexivity.
    + reflexivity.
Defined.

(** * Further properties of the arguments *)

Section ArgumentFacts.

(** Text without a separator lengthens the last component. *)
Lemma split_append_no_sep (sep : ascii) (b : string) :
  has_char sep b = false ->
  forall a,
    split sep (a ++ b)
    = removelast (split sep a) ++ [(last (split sep a) "" ++ b)%string].
Proof.
  intros Hb a. induction a as [|c a IH].
  - simpl. now apply split_no_sep.
  - change (String c a ++ b)%string with (String c (a ++ b)).
    simpl split. destruct (Ascii.eqb c sep).
    + rewrite IH. destruct (split sep a) as [|x xs] eqn:E;
        [now apply split_not_nil in E|].
      reflexivity.
    + rewrite IH. destruct (split sep a) as [|x xs] eqn:E;
        [now apply split_not_nil in E|].
      destruct xs as [|y ys]; reflexivity.
Qed.

(** No component holds the separator. *)
Lemma split_components (sep : ascii) (s : string) :
  Forall (fun x => has_char sep x = false) (split sep s).
Proof.
  induction s as [|c s IH]; simpl; [repeat constructor|].
  destruct (Ascii.eqb c sep) eqn:E.
  - constructor; [reflexivity | exact IH].
  - destruct (split sep s) as [|x xs]; [repeat constructor; simpl; now rewrite E|].
    inversion IH; subst. constructor; [simpl; now rewrite E | assumption].
Qed.

Lemma last_in_list {X : Type} (l : list X) (d : X) :
  l <> [] -> In (last l d) l.
Proof.
  induction l as [|x l IH]; [contradiction|]. intros _.
  destruct l as [|y l]; [now left|].
  right. apply IH. discriminate.
Qed.

Lemma last_component (sep : ascii) (s : string) :
  has_char sep (last (split sep s) "") = false.
Proof.
  pose proof (split_components sep s) as H.
  rewrite Forall_forall in H. apply H.
  apply last_in_list, split_not_nil.
Qed.

(** The path of an argument that ends in the suffix. *)
Lemma parse_docset_suffix (s : string) :
  exists n front,
    has_char "/" n = false
    /\ parse (s ++ ".docset")
       = mkPath (fst (splitroot s)) (front ++ [(n ++ ".docset")%string]).
Proof.
  unfold parse.
  change ".docset"%string with (String "." "docset").
  rewrite splitroot_append by reflexivity.
  change (String "." "docset") with ".docset"%string.
  rewrite split_append_no_sep by reflexivity.
  rewrite filter_app. simpl filter at 2.
  rewrite keep_part_long by (rewrite length_append; simpl; lia).
  eexists. eexists. split; [|reflexivity].
  apply last_component.
Qed.

Lemma stem_of_name (n : string) :
  has_char "/" n = false ->
  forall front r,
    stem (mkPath r (front ++ [(n ++ ".docset")%string]))
    = if String.eqb n "" then ".docset"%string else n.
Proof.
  intros _ front r. unfold stem, Pathlib.name. simpl tail.
  rewrite last_last. cbv zeta.
  destruct (String.eqb n "") eqn:En.
  - apply String.eqb_eq in En. subst n. reflexivity.
  - apply String.eqb_neq in En.
    rewrite rfind_append. simpl rfind. cbv iota.
    rewrite Nat.add_0_r, length_append. simpl String.length.
    assert (Hlen : 0 < String.length n)
      by (destruct n; [contradiction | simpl; lia]).
    replace (Nat.ltb 0 (String.length n)) with true
      by (symmetry; apply Nat.ltb_lt; lia).
    replace (Nat.ltb (String.length n) (String.length n + 7 - 1)) with true
      by (symmetry; apply Nat.ltb_lt; lia).
    simpl andb. cbv iota. apply take_append.
Qed.

End ArgumentFacts.

(** X10. Every argument that passes the filter of [main] names a
    docset: the last component of its path is a name [n.docset]
    without a separator, the docset id given to its entries is [n]
    -- or [.docset] itself when [n] is empty, a name with no
    extension to pathlib --, and its store is looked for at the path
    of the argument followed by [/Contents/Resources/docSet.dsidx]. *)
Theorem accepted_argument_names_a_docset (arg : string) :
  is_docset_arg arg = true ->
  exists n,
    Pathlib.name (parse arg) = (n ++ ".docset")%string
    /\ has_char "/" n = false
    /\ stem (parse arg) = (if String.eqb n "" then ".docset"%string else n)
    /\ str (docset_db_path (parse arg))
       = (str (parse arg) ++ "/Contents/Resources/docSet.dsidx")%string
    /\ documents_root (parse arg)
       = (str (parse arg) ++ "/Contents/Resources/Documents")%string.
Proof.
  intro H. apply is_docset_arg_iff in H. destruct H as [s H].
  assert (Hp : parse arg = parse (s ++ ".docset")).
  { destruct H as [-> | ->]; [reflexivity|].
    exact (parse_trailing_sep s "docset" "." eq_refl). }
  rewrite Hp. destruct (parse_docset_suffix s) as (n & front & Hn & ->).
  exists n. split.
  - unfold Pathlib.name. simpl tail. apply last_last.
  - split; [exact Hn|]. split; [now apply stem_of_name|].
    split.
    + apply docset_db_path_location. simpl. now destruct front.
    + apply documents_root_location. simpl. now destruct front.
Qed.

Lemma accepted_argument_names_a_docset_witness :
  exists n,
    Pathlib.name (parse "/docs//Python 3.docset/") = (n ++ ".docset")%string
    /\ has_char "/" n = false
    /\ stem (parse "/docs//Python 3.docset/")
       = (if String.eqb n "" then ".docset"%string else n)
    /\ str (docset_db_path (parse "/docs//Python 3.docset/"))
       = (str (parse "/docs//Python 3.docset/")
          ++ "/Contents/Resources/docSet.dsidx")%string
    /\ documents_root (parse "/docs//Python 3.docset/")
       = (str (parse "/docs//Python 3.docset/")
          ++ "/Contents/Resources/Documents")%string.
Proof.
  apply (accepted_argument_names_a_docset "/docs//Python 3.docset/").
  reflexivity.
Defined.

(** * The download script *)

Section DownloadFacts.

Import Download.

Lemma dl_bind_ret {A B : Type} (x : A) (f : A -> Download.M B) :
  Download.bind (Download.ret x) f = f x.
Proof. unfold Download.bind, Download.ret. now destruct (f x). Qed.

Lemma dl_trace_bind {A B : Type} (m : Download.M A) (f : A -> Download.M B) :
  Download.trace (Download.bind m f) =
  Download.trace m ++ match Download.result m with
                      | inl _ => []
                      | inr x => Download.trace (f x)
                      end.
Proof.
  destruct m as [t [e|x]]; simpl; [now rewrite app_nil_r|].
  now destruct (f x).
Qed.

Lemma dl_result_bind {A B : Type} (m : Download.M A) (f : A -> Download.M B) :
  Download.result (Download.bind m f) =
  match Download.result m with
  | inl e => inl e
  | inr x => Download.result (f x)
  end.
Proof. destruct m as [t [e|x]]; simpl; [reflexivity | now destruct (f x)]. Qed.

(** The loop over the tree logs nothing, and what it raises is an
    [Exception]. *)
Lemma collect_silent (items : list json) : forall docsets,
  Download.trace (collect items docsets) = [].
Proof.
  induction items as [|item rest IH]; intro docsets; [reflexivity|].
  cbn [collect]. destruct item; try reflexivity.
  unfold get. rewrite !dl_bind_ret.
  destruct (is_blob _).
  - destruct (lookup members "path" (JString "")); try reflexivity.
    unfold endswith_xml. rewrite dl_bind_ret.
    destruct (endswith s ".xml"); apply IH.
  - rewrite dl_bind_ret. apply IH.
Qed.

Lemma collect_raises (items : list json) : forall docsets e,
  Download.result (collect items docsets) = inl e -> e = AttributeError.
Proof.
  induction items as [|item rest IH]; intros docsets e; [discriminate|].
  cbn [collect]. destruct item; try (now intros [= <-]).
  unfold get. rewrite !dl_bind_ret.
  destruct (is_blob _).
  - destruct (lookup members "path" (JString "")); try (now intros [= <-]).
    unfold endswith_xml. rewrite dl_bind_ret.
    destruct (endswith s ".xml"); apply IH.
  - rewrite dl_bind_ret. apply IH.
Qed.

Lemma insert_sorted_in (a x : string) (l : list string) :
  In x (insert_sorted a l) <-> x = a \/ In x l.
Proof.
  induction l as [|y l IH]; simpl.
  - intuition.
  - destruct (String.leb a y); simpl; [intuition|].
    rewrite IH. intuition.
Qed.

(** Sorting keeps the elements. *)
Lemma sorted_in (x : string) (l : list string) :
  In x (sorted l) <-> In x l.
Proof.
  induction l as [|a l IH]; simpl; [reflexivity|].
  rewrite insert_sorted_in, IH. intuition.
Qed.

Lemma sorted_length (l : list string) :
  List.length (sorted l) = List.length l.
Proof.
  assert (H : forall a k, List.length (insert_sorted a k) = S (List.length k)).
  { intros a k. induction k as [|y k IH]; simpl; [reflexivity|].
    destruct (String.leb a y); simpl; [reflexivity | now rewrite IH]. }
  induction l as [|a l IH]; simpl; [reflexivity|]. now rewrite H, IH.
Qed.

Lemma ascending_cons (x y : string) (l : list string) :
  ascending (x :: y :: l) = String.leb x y && ascending (y :: l).
Proof. reflexivity. Qed.

Lemma insert_sorted_ascending (a : string) (l : list string) :
  ascending l = true -> ascending (insert_sorted a l) = true.
Proof.
  induction l as [|y l IH]; intro H; [reflexivity|].
  cbn [insert_sorted]. destruct (String.leb a y) eqn:E.
  - now rewrite ascending_cons, E, H.
  - assert (Hya : String.leb y a = true).
    { destruct (String.leb_total a y) as [H'|H']; congruence. }
    destruct l as [|z l].
    + cbn [insert_sorted]. now rewrite ascending_cons, Hya.
    + rewrite ascending_cons in H. apply andb_true_iff in H.
      destruct H as [Hyz Htl]. specialize (IH Htl).
      cbn [insert_sorted] in *. destruct (String.leb a z).
      * now rewrite ascending_cons, Hya, IH.
      * now rewrite ascending_cons, Hyz, IH.
Qed.

(** Sorting arranges in ascending order. *)
Lemma sorted_ascending (l : list string) : ascending (sorted l) = true.
Proof.
  induction l as [|a l IH]; [reflexivity|].
  cbn [sorted]. now apply insert_sorted_ascending.
Qed.

End DownloadFacts.

(** X11. [fetch_available_docsets] never raises: whatever the
    network answers and whatever the response holds, it returns a
    list of names.  The list is in ascending order, and it is empty
    whenever an error was logged. *)
Theorem fetch_returns_sorted_names (w : Download.env) :
  exists names,
    Download.result (Download.fetch_available_docsets w) = inr names
    /\ Download.ascending names = true
    /\ ((exists fmt args,
            In (Download.Log Download.ERROR fmt args)
               (Download.trace (Download.fetch_available_docsets w))) ->
        names = []).
Proof.
  unfold Download.fetch_available_docsets.
  set (h := fun e : Download.exn => if Download.is_Exception e then _ else _).
  destruct (Download.github w) as [what|resp].
  { exists []. simpl. repeat split; reflexivity. }
  cbn [Download.of_network]. rewrite dl_bind_ret.
  destruct (Z.eqb (Download.status resp) 200).
  2:{ exists []. simpl. repeat split; reflexivity. }
  cbn [negb]. cbv iota.
  destruct (Download.read resp) as [what|body].
  { exists []. simpl. repeat split; reflexivity. }
  cbn [Download.of_network]. rewrite dl_bind_ret.
  destruct (Download.json_loads w body) as [what|data].
  { exists []. simpl. repeat split; reflexivity. }
  cbn [Download.of_decoder]. rewrite dl_bind_ret.
  destruct data as [| | | | |members];
    try (exists []; simpl; repeat split; reflexivity).
  cbn [Download.get]. rewrite dl_bind_ret.
  assert (Hitems : forall items,
    let run :=
      Download.try_except
        (Download.bind
           (Download.emit
              (Download.HttpGet "api.github.com"
                 "/repos/Kapeli/feeds/git/trees/master"))
           (fun _ =>
            Download.bind (Download.collect items [])
              (fun docsets => Download.ret (Download.sorted docsets)))) h in
    exists names,
      Download.result run = inr names
      /\ Download.ascending names = true
      /\ ((exists fmt args,
              In (Download.Log Download.ERROR fmt args) (Download.trace run))
          -> names = [])).
  { intro items.
    pose proof (collect_silent items []) as Hs.
    pose proof (collect_raises items []) as Hr.
    destruct (Download.collect items []) as [tc [e|docsets]];
      unfold Download.trace, Download.result in Hs, Hr; simpl in Hs, Hr; subst tc.
    - rewrite (Hr e eq_refl). exists []. simpl. repeat split; reflexivity.
    - exists (Download.sorted docsets). simpl.
      split; [reflexivity|]. split; [apply sorted_ascending|].
      intros (fmt & args & [H|[]]). discriminate. }
  destruct (Download.lookup members "tree" (Download.JList []))
    as [| | |s|items|kv];
    try (exists []; simpl; repeat split; reflexivity).
  - cbn [Download.iterate]. rewrite dl_bind_ret. apply Hitems.
  - cbn [Download.iterate]. rewrite dl_bind_ret. apply Hitems.
  - cbn [Download.iterate]. rewrite dl_bind_ret. apply Hitems.
Qed.

Section FeedFacts.

Lemma append_inv_tail (a b c : string) :
  (a ++ c)%string = (b ++ c)%string -> a = b.
Proof.
  intro H.
  assert (Hl : String.length a = String.length b).
  { apply (f_equal String.length) in H. rewrite !length_append in H. lia. }
  rewrite <- (take_append a c), H, Hl. apply take_append.
Qed.

Lemma without_extension_xml (n : string) :
  Download.without_extension (Download.JString (n ++ ".xml")) = n.
Proof.
  cbn [Download.without_extension].
  rewrite length_append. simpl String.length.
  replace (String.length n + 4 - 4) with (String.length n) by lia.
  apply take_append.
Qed.

(** The loop over a tree of regular items collects the feeds. *)
Lemma collect_feeds (items : list Download.json) :
  Forall regular_item items ->
  forall docsets,
  exists names,
    Download.collect items docsets = ([], inr (docsets ++ names))
    /\ (forall n, In n names <->
                  exists item, In item items /\ feed_item item n).
Proof.
  induction 1 as [|item rest Hitem _ IH]; intro docsets.
  - exists []. rewrite app_nil_r. split; [reflexivity|].
    intro n. split; [intros [] | intros (item & [] & _)].
  - destruct Hitem as (members & -> & Hpath).
    cbn [Download.collect Download.get]. rewrite !dl_bind_ret.
    destruct (Download.is_blob
                (Download.lookup members "type" (Download.JString "")))
      eqn:Eblob.
    + destruct (Hpath eq_refl) as [p Hp]. rewrite Hp.
      cbn [Download.endswith_xml]. rewrite dl_bind_ret.
      destruct (endswith p ".xml") eqn:Exml.
      * apply endswith_inv in Exml. destruct Exml as [q ->].
        rewrite without_extension_xml.
        destruct (IH (docsets ++ [q])) as (names & Hc & Hn).
        exists (q :: names). rewrite Hc, <- app_assoc.
        split; [reflexivity|]. intro n. split.
        -- intros [<-|Hin].
           ++ exists (Download.JDict members). split; [now left|].
              exists members. split; [reflexivity|]. split; [|exact Hp].
              destruct (Download.lookup members "type" (Download.JString ""));
                try discriminate.
              cbn [Download.is_blob] in Eblob.
              apply String.eqb_eq in Eblob. now subst.
           ++ apply Hn in Hin. destruct Hin as (item & Hin & Hf).
              exists item. split; [now right | exact Hf].
        -- intros (item & [<-|Hin] & Hf).
           ++ destruct Hf as (m' & [= <-] & _ & Hp').
              rewrite Hp in Hp'. inversion Hp' as [Hq].
              left. now apply append_inv_tail in Hq.
           ++ right. apply Hn. now exists item.
      * destruct (IH docsets) as (names & Hc & Hn).
        exists names. split; [exact Hc|]. intro n. rewrite Hn. split.
        -- intros (item & Hin & Hf). exists item. split; [now right | exact Hf].
        -- intros (item & [<-|Hin] & Hf); [|now exists item].
           destruct Hf as (m' & [= <-] & _ & Hp').
           rewrite Hp in Hp'. inversion Hp'; subst.
           now rewrite endswith_append in Exml.
    + rewrite dl_bind_ret.
      destruct (IH docsets) as (names & Hc & Hn).
      exists names. split; [exact Hc|]. intro n. rewrite Hn. split.
      * intros (item & Hin & Hf). exists item. split; [now right | exact Hf].
      * intros (item & [<-|Hin] & Hf); [|now exists item].
        destruct Hf as (m' & [= <-] & Hty & _).
        rewrite Hty in Eblob. discriminate.
Qed.

End FeedFacts.

(** X12. When the API answers with status 200 and a JSON object
    whose [tree] is a list of regular items, the names returned are
    exactly the names of the feeds of the tree: [n] is returned if and
    only if the tree has a blob with path [n.xml].  The list is in
    ascending order and no error is logged. *)
Theorem fetched_names_are_the_feeds (w : Download.env)
    (resp : Download.response) (body : string)
    (members : list (string * Download.json)) (items : list Download.json) :
  Download.github w = inr resp ->
  Download.status resp = 200%Z ->
  Download.read resp = inr body ->
  Download.json_loads w body = inr (Download.JDict members) ->
  Download.lookup members "tree" (Download.JList []) = Download.JList items ->
  Forall regular_item items ->
  exists names,
    Download.fetch_available_docsets w
    = ([Download.HttpGet "api.github.com" "/repos/Kapeli/feeds/git/trees/master"],
       inr names)
    /\ Download.ascending names = true
    /\ (forall n, In n names <->
                  exists item, In item items /\ feed_item item n).
Proof.
  intros Hgh Hst Hrd Hjs Htree Hreg.
  destruct (collect_feeds items Hreg []) as (names & Hc & Hn).
  exists (Download.sorted names).
  split; [|split; [apply sorted_ascending|]].
  - unfold Download.fetch_available_docsets.
    rewrite Hgh. cbn [Download.of_network]. rewrite dl_bind_ret.
    rewrite Hst. cbn [Z.eqb Pos.eqb negb]. cbv iota.
    rewrite Hrd. cbn [Download.of_network]. rewrite dl_bind_ret.
    rewrite Hjs. cbn [Download.of_decoder]. rewrite dl_bind_ret.
    cbn [Download.get]. rewrite dl_bind_ret, Htree.
    cbn [Download.iterate]. rewrite dl_bind_ret, Hc. reflexivity.
  - intro n. rewrite sorted_in. apply Hn.
Qed.

Lemma fetched_names_are_the_feeds_witness :
  let blob p := Download.JDict [("path"%string, Download.JString p);
                                ("type"%string, Download.JString "blob")] in
  let items := [blob "Python_3.xml"%string; blob "README.md"%string;
                Download.JDict [("path"%string, Download.JString "icons");
                                ("type"%string, Download.JString "tree")];
                blob "C++.xml"%string] in
  let w := Download.mkEnv (fun _ => true) (fun _ => true)
             (inr (Download.mkResponse 200 (inr "{...}"%string)))
             (fun _ => inr (Download.JDict
                              [("sha"%string, Download.JString "0a1b");
                               ("tree"%string, Download.JList items)]))
             (fun _ => Dashp.Completed 130 "")
             (fun _ _ => inr true) in
  Download.result (Download.fetch_available_docsets w)
    = inr ["C++"%string; "Python_3"%string]
  /\ exists names,
       Download.fetch_available_docsets w
       = ([Download.HttpGet "api.github.com"
             "/repos/Kapeli/feeds/git/trees/master"], inr names)
       /\ Download.ascending names = true
       /\ (forall n, In n names <->
                     exists item, In item items /\ feed_item item n).
Proof.
  cbv zeta. split; [reflexivity|].
  eapply fetched_names_are_the_feeds; try reflexivity.
  repeat constructor; eexists; (split; [reflexivity|]);
    intro; try discriminate; eexists; reflexivity.
Defined.



Section BatchFacts.

Variable w : Download.env.

(** The loop over the selection, when no download raises. *)
Lemma download_all_counts (dir : Path) (selected : list string)
    (oks : list bool) :
  Forall2 (fun n ok => Download.download_docset w n dir = inr ok) selected oks ->
  forall c,
    Download.download_all w selected dir c
    = (map (fun n => Download.DownloadDocset n (str dir)) selected,
       inr (c + successes oks)%Z).
Proof.
  induction 1 as [|n ok selected oks Hn _ IH]; intro c.
  - simpl. now rewrite Z.add_0_r.
  - cbn [Download.download_all]. rewrite Hn.
    cbn [Download.of_outcome]. rewrite dl_bind_ret, IH.
    simpl. f_equal. f_equal. destruct ok; lia.
Qed.

Lemma successes_bounds (oks : list bool) :
  (0 <= successes oks <= Z.of_nat (List.length oks))%Z.
Proof.
  induction oks as [|ok oks IH]; [simpl; lia|].
  cbn [successes List.length]. destruct ok; lia.
Qed.

(** All the downloads succeeded exactly when the count is the length. *)
Lemma successes_all (oks : list bool) :
  Z.eqb (successes oks) (Z.of_nat (List.length oks)) = forallb (fun ok => ok) oks.
Proof.
  induction oks as [|ok oks IH]; [reflexivity|].
  cbn [successes List.length forallb].
  pose proof (successes_bounds oks) as Hb.
  destruct ok.
  - rewrite <- IH. simpl andb.
    destruct (Z.eqb (successes oks) (Z.of_nat (List.length oks))) eqn:E.
    + apply Z.eqb_eq in E. apply Z.eqb_eq. lia.
    + apply Z.eqb_neq in E. apply Z.eqb_neq. lia.
  - simpl andb. apply Z.eqb_neq. lia.
Qed.

End BatchFacts.

(** X14. Once names are selected, [main] of the download script
    attempts every one of them, in the order of the selection, also
    after a download has failed; it then logs how many succeeded and
    exits with status 0 when all of them did and with status 1
    otherwise. *)
Theorem every_selected_docset_is_attempted (w : Download.env)
    (argv0 arg1 : string) (rest : list string)
    (tf ts : list Download.event) (docsets selected : list string)
    (oks : list bool) :
  Download.dir_exists w (str (parse arg1)) = true ->
  Download.is_dir w (str (parse arg1)) = true ->
  Download.fetch_available_docsets w = (tf, inr docsets) ->
  docsets <> [] ->
  Download.select_docsets_with_fzf w docsets = (ts, inr selected) ->
  selected <> [] ->
  Forall2 (fun n ok => Download.download_docset w n (parse arg1) = inr ok)
          selected oks ->
  Download.main w argv0 (arg1 :: rest)
  = (Download.Log Download.INFO "Fetching available docsets..." []
       :: tf
       ++ Download.Log Download.INFO "Found %d docsets"
            [Download.ArgInt (Z.of_nat (List.length docsets))]
       :: ts
       ++ map (fun n => Download.DownloadDocset n (str (parse arg1))) selected
       ++ [Download.Log Download.INFO "Downloaded %d of %d selected docsets"
             [Download.ArgInt (successes oks);
              Download.ArgInt (Z.of_nat (List.length selected))]],
     inl (Download.SystemExit (if forallb (fun ok => ok) oks then 0 else 1))).
Proof.
  intros Hex Hdir Hfetch Hne Hsel Hsne Hdl.
  assert (Hlen : List.length selected = List.length oks)
    by exact (Forall2_length Hdl).
  pose proof (successes_all oks) as Hall. rewrite <- Hlen in Hall.
  unfold Download.main. rewrite Hex, Hdir. cbn [negb]. cbv iota.
  rewrite Hfetch.
  destruct docsets as [|d0 docsets']; [contradiction|].
  cbn [Download.bind Download.emit Download.raise Download.ret].
  rewrite Hsel. destruct selected as [|s0 selected']; [contradiction|].
  cbn [Download.bind Download.emit Download.raise Download.ret].
  rewrite (download_all_counts w _ _ _ Hdl 0%Z), Z.add_0_l.
  cbn [Download.bind Download.emit Download.raise Download.ret].
  rewrite Hall. reflexivity.
Qed.

Lemma every_selected_docset_is_attempted_witness :
  let w := Download.mkEnv (fun _ => true) (fun _ => true)
             (inr (Download.mkResponse 200 (inr "{...}"%string)))
             (fun _ => inr (Download.JDict
                [("tree"%string,
                  Download.JList
                    [Download.JDict [("path"%string, Download.JString "Go.xml");
                                     ("type"%string, Download.JString "blob")];
                     Download.JDict [("path"%string, Download.JString "C.xml");
                                     ("type"%string, Download.JString "blob")]])]))
             (fun _ => Dashp.Completed 0 ("Go" ++ Download.newline ++ "C"))
             (fun n _ => inr (String.eqb n "C")) in
  Download.main w "dashp-download" ["docsets"%string]
  = ([Download.Log Download.INFO "Fetching available docsets..." [];
      Download.HttpGet "api.github.com" "/repos/Kapeli/feeds/git/trees/master";
      Download.Log Download.INFO "Found %d docsets" [Download.ArgInt 2];
      Download.RunFzf ("C" ++ Download.newline ++ "Go");
      Download.DownloadDocset "Go" "docsets";
      Download.DownloadDocset "C" "docsets";
      Download.Log Download.INFO "Downloaded %d of %d selected docsets"
        [Download.ArgInt 1; Download.ArgInt 2]],
     inl (Download.SystemExit 1)).
Proof.
  cbv zeta.
  apply (every_selected_docset_is_attempted _ "dashp-download" "docsets" []
           [Download.HttpGet "api.github.com"
              "/repos/Kapeli/feeds/git/trees/master"]
           [Download.RunFzf ("C" ++ Download.newline ++ "Go")]
           ["C"%string; "Go"%string] ["Go"%string; "C"%string]
           [false; true]).
  - reflexivity.
  - reflexivity.
  - reflexivity.
  - discriminate.
  - reflexivity.
  - discriminate.
  - repeat constructor.
Defined.

Section FetchEvents.

(** Fetching the names downloads nothing. *)
Lemma fetch_no_download (w : Download.env) :
  filter is_download (Download.trace (Download.fetch_available_docsets w)) = [].
Proof.
  unfold Download.fetch_available_docsets.
  set (h := fun e : Download.exn => if Download.is_Exception e then _ else _).
  destruct (Download.github w) as [what|resp]; [reflexivity|].
  cbn [Download.of_network]. rewrite dl_bind_ret.
  destruct (Z.eqb (Download.status resp) 200); [|reflexivity].
  cbn [negb]. cbv iota.
  destruct (Download.read resp) as [what|body]; [reflexivity|].
  cbn [Download.of_network]. rewrite dl_bind_ret.
  destruct (Download.json_loads w body) as [what|data]; [reflexivity|].
  cbn [Download.of_decoder]. rewrite dl_bind_ret.
  destruct data as [| | | | |members]; try reflexivity.
  cbn [Download.get]. rewrite dl_bind_ret.
  assert (Hitems : forall items,
    filter is_download
      (Download.trace
         (Download.try_except
            (Download.bind
               (Download.emit
                  (Download.HttpGet "api.github.com"
                     "/repos/Kapeli/feeds/git/trees/master"))
               (fun _ =>
                Download.bind (Download.collect items [])
                  (fun docsets => Download.ret (Download.sorted docsets)))) h))
    = []).
  { intro items.
    pose proof (collect_silent items []) as Hs.
    pose proof (collect_raises items []) as Hr.
    destruct (Download.collect items []) as [tc [e|docsets]];
      unfold Download.trace, Download.result in Hs, Hr; simpl in Hs, Hr; subst tc.
    - now rewrite (Hr e eq_refl).
    - reflexivity. }
  destruct (Download.lookup members "tree" (Download.JList []))
    as [| | |s|items|kv]; try reflexivity;
    cbn [Download.iterate]; rewrite dl_bind_ret; apply Hitems.
Qed.

End FetchEvents.

(** X15. Leaving the selector of the download script with Esc or
    Ctrl-C (return code 130) ends the script at once with status 0:
    nothing is downloaded and nothing more is logged. *)
Theorem cancelled_selection_exits_cleanly (w : Download.env)
    (argv0 arg1 : string) (rest : list string) (tf : list Download.event)
    (docsets : list string) (stdout : string) :
  Download.dir_exists w (str (parse arg1)) = true ->
  Download.is_dir w (str (parse arg1)) = true ->
  Download.fetch_available_docsets w = (tf, inr docsets) ->
  docsets <> [] ->
  Download.fzf w (join Download.newline docsets) = Dashp.Completed 130 stdout ->
  Download.main w argv0 (arg1 :: rest)
  = (Download.Log Download.INFO "Fetching available docsets..." []
       :: tf
       ++ [Download.Log Download.INFO "Found %d docsets"
             [Download.ArgInt (Z.of_nat (List.length docsets))];
           Download.RunFzf (join Download.newline docsets)],
     inl (Download.SystemExit 0))
  /\ Download.exit_status (Download.result (Download.main w argv0 (arg1 :: rest)))
     = 0%Z
  /\ filter is_download (Download.trace (Download.main w argv0 (arg1 :: rest)))
     = [].
Proof.
  intros Hex Hdir Hfetch Hne Hfzf.
  assert (Hmain : Download.main w argv0 (arg1 :: rest)
    = (Download.Log Download.INFO "Fetching available docsets..." []
         :: tf
         ++ [Download.Log Download.INFO "Found %d docsets"
               [Download.ArgInt (Z.of_nat (List.length docsets))];
             Download.RunFzf (join Download.newline docsets)],
       inl (Download.SystemExit 0))).
  { unfold Download.main. rewrite Hex, Hdir. cbn [negb]. cbv iota.
    rewrite Hfetch.
    destruct docsets as [|d0 docsets']; [contradiction|].
    cbn [Download.bind Download.emit Download.raise Download.ret].
    unfold Download.select_docsets_with_fzf. cbv zeta. rewrite Hfzf.
    reflexivity. }
  rewrite Hmain. split; [reflexivity|]. split; [reflexivity|].
  pose proof (fetch_no_download w) as Hnd. rewrite Hfetch in Hnd.
  unfold Download.trace in *. cbn [fst] in *.
  cbn [filter is_download]. rewrite filter_app, Hnd. reflexivity.
Qed.

Lemma cancelled_selection_exits_cleanly_witness :
  let w := Download.mkEnv (fun _ => true) (fun _ => true)
             (inr (Download.mkResponse 200 (inr "{...}"%string)))
             (fun _ => inr (Download.JDict
                [("tree"%string,
                  Download.JList
                    [Download.JDict [("path"%string, Download.JString "Go.xml");
                                     ("type"%string, Download.JString "blob")]])]))
             (fun _ => Dashp.Completed 130 "")
             (fun _ _ => inr true) in
  Download.main w "dashp-download" ["docsets"%string]
  = (Download.Log Download.INFO "Fetching available docsets..." []
       :: [Download.HttpGet "api.github.com"
             "/repos/Kapeli/feeds/git/trees/master"]
       ++ [Download.Log Download.INFO "Found %d docsets" [Download.ArgInt 1];
           Download.RunFzf "Go"],
     inl (Download.SystemExit 0)).
Proof.
  cbv zeta.
  apply (cancelled_selection_exits_cleanly _ "dashp-download" "docsets" []
           [Download.HttpGet "api.github.com"
              "/repos/Kapeli/feeds/git/trees/master"]
           ["Go"%string] "").
  - reflexivity.
  - reflexivity.
  - reflexivity.
  - discriminate.
  - reflexivity.
Defined.
